(** * A shallow embedding of the cookie jar of package [cookie] (jar.go,
    punycode encoder, cookie.go) and the properties of its specification.

    Conventions of the embedding:
    - a Go [string] is a [String.string]: a sequence of 8-bit [ascii]
      characters, i.e. of bytes;
    - Go integers are [Z]; the punycode encoder's [int32] arithmetic wraps
      explicitly with [i32];
    - a [time.Time] is a [Z] counting nanoseconds from Go's zero time, so
      [IsZero] is [= 0], [After] is [>] and [Add] is [+];
    - every function that can panic (index or slice out of range) returns an
      [outcome]: [Ret] a result, [Fail] an [error] value, or [Panic];
    - the jar's [map[string]map[string]*jarEntry] is a [gmap] of [gmap]s;
    - functions of Go's standard library that the package calls
      ([unicode] lower-casing, [net.ParseIP], [net.SplitHostPort],
      [time.Parse], [strconv.Atoi]) are fields of a [GoEnv] record, so the
      universal theorems hold for every implementation of them. *)

From stdpp Require Import base gmap strings list.
From Stdlib Require Import ZArith Lia Ascii String.

Open Scope string_scope.
Open Scope Z_scope.

(** ** Outcomes: results, errors and panics *)

Inductive error :=
| errInvalidScheme
| errNoHostname
| errMalformedDomain
| errIllegalDomain
| errInvalidDomain
| errSplitHostPort
| errParse (msg : string).

Inductive outcome (A : Type) :=
| Ret (a : A)
| Fail (e : error)
| Panic.
Arguments Ret {A} a.
Arguments Fail {A} e.
Arguments Panic {A}.

Global Instance outcome_ret : MRet outcome := fun A a => Ret a.
Global Instance outcome_bind : MBind outcome := fun A B f m =>
  match m with
  | Ret a => f a
  | Fail e => Fail e
  | Panic => Panic
  end.

(** ** Bytes and strings *)

Definition byte_of (c : ascii) : Z := Z.of_N (N_of_ascii c).
Definition chr (z : Z) : ascii := ascii_of_N (Z.to_N (z mod 256)).

Definition len (s : string) : Z := Z.of_nat (String.length s).

(** [s[i]]: panics out of range. *)
Definition at_ (s : string) (i : Z) : outcome ascii :=
  if i <? 0 then Panic
  else match String.get (Z.to_nat i) s with
       | Some c => Ret c
       | None => Panic
       end.

(** [s[lo:hi]]: panics unless [0 <= lo <= hi <= len(s)]. *)
Definition slice (s : string) (lo hi : Z) : outcome string :=
  if (0 <=? lo) && (lo <=? hi) && (hi <=? len s)
  then Ret (String.substring (Z.to_nat lo) (Z.to_nat (hi - lo)) s)
  else Panic.

Definition push (buf : string) (c : ascii) : string := buf ++ String c EmptyString.

Definition bytes (s : string) : list Z := map byte_of (list_ascii_of_string s).

(** [strings.HasPrefix]. *)
Definition HasPrefix (s prefix : string) : bool :=
  (len prefix <=? len s) &&
  String.eqb (String.substring 0 (String.length prefix) s) prefix.

(** [strings.IndexByte]: the first index of [c], or -1. *)
Fixpoint IndexByte (s : string) (c : ascii) : Z :=
  match s with
  | EmptyString => -1
  | String c' s' =>
      if Ascii.eqb c' c then 0
      else let i := IndexByte s' c in if i <? 0 then -1 else i + 1
  end.

(** [strings.LastIndex] for a one-byte separator. *)
Fixpoint LastIndexByte (s : string) (c : ascii) : Z :=
  match s with
  | EmptyString => -1
  | String c' s' =>
      let i := LastIndexByte s' c in
      if 0 <=? i then i + 1 else if Ascii.eqb c' c then 0 else -1
  end.

(** [strings.Split] on a one-byte separator. *)
Fixpoint Split (s : string) (sep : ascii) : list string :=
  match s with
  | EmptyString => [EmptyString]
  | String c s' =>
      if Ascii.eqb c sep then EmptyString :: Split s' sep
      else match Split s' sep with
           | x :: xs => String c x :: xs
           | [] => [String c EmptyString]
           end
  end.

(** [strings.Join]. *)
Fixpoint Join (l : list string) (sep : string) : string :=
  match l with
  | [] => EmptyString
  | [x] => x
  | x :: xs => x ++ sep ++ Join xs sep
  end.

(** ** The Go standard library functions the package calls *)

Record GoEnv := {
  (* [strings.ToLower] on a string that is not pure ASCII
     ([Map(unicode.ToLower, s)]). *)
  unicodeToLower : string -> string;
  (* [net.ParseIP(s) != nil]. *)
  parseIP : string -> bool;
  (* [net.SplitHostPort], host part. *)
  splitHostPort : string -> outcome string;
  (* [time.Parse(layout, value)]. *)
  timeParse : string -> string -> outcome Z;
  (* [strconv.Atoi]. *)
  atoi : string -> outcome Z
}.

Section Package.
Variable env : GoEnv.

(** [strings.ToLower]: an ASCII-only string is lower-cased byte by byte,
    any other string goes through [unicode.ToLower]. *)
Definition asciiLower (c : ascii) : ascii :=
  let b := byte_of c in
  if (65 <=? b) && (b <=? 90) then chr (b + 32) else c.

(** [isASCII] (punycode file). *)
Definition isASCII (s : string) : bool :=
  forallb (fun b => b <? 128) (bytes s).

Definition ToLower (s : string) : string :=
  if isASCII s then string_of_list_ascii (map asciiLower (list_ascii_of_string s))
  else unicodeToLower env s.


(** ** Punycode encoder (file without a name, [encode], [adapt], [toASCII]) *)

(** [int32] wrap-around and the [int32] operators; [/] and [%] truncate. *)
Definition i32 (z : Z) : Z := ((z + 2^31) mod 2^32) - 2^31.
Definition add32 (x y : Z) : Z := i32 (x + y).
Definition sub32 (x y : Z) : Z := i32 (x - y).
Definition mul32 (x y : Z) : Z := i32 (x * y).
Definition quot32 (x y : Z) : Z := i32 (Z.quot x y).
Definition rem32 (x y : Z) : Z := i32 (Z.rem x y).

Definition base : Z := 36.
Definition damp : Z := 700.
Definition skew : Z := 38.
Definition tmax : Z := 26.
Definition tmin : Z := 1.
Definition initialBias : Z := 72.
Definition initialN : Z := 128.

(** The runes a Go [for _, r := range s] yields: UTF-8 decoding where an
    invalid or truncated sequence yields [utf8.RuneError] (U+FFFD) and
    consumes one byte ([utf8.DecodeRuneInString]). *)
Definition RuneError : Z := 65533.

Definition utf8_cont (x : Z) : bool := (128 <=? x) && (x <=? 191).

Fixpoint runes (l : list Z) : list Z :=
  match l with
  | [] => []
  | b0 :: l1 =>
      if b0 <? 128 then b0 :: runes l1 else
      let sz := if (194 <=? b0) && (b0 <=? 223) then 2%nat
                else if (224 <=? b0) && (b0 <=? 239) then 3%nat
                else if (240 <=? b0) && (b0 <=? 244) then 4%nat
                else 0%nat in
      let lo := if b0 =? 224 then 160 else if b0 =? 240 then 144 else 128 in
      let hi := if b0 =? 237 then 159 else if b0 =? 244 then 143 else 191 in
      match sz, l1 with
      | O, _ => RuneError :: runes l1
      | _, b1 :: l2 =>
          if negb ((lo <=? b1) && (b1 <=? hi)) then RuneError :: runes l1
          else if (sz =? 2)%nat then
            Z.lor (Z.shiftl (Z.land b0 31) 6) (Z.land b1 63) :: runes l2
          else match l2 with
               | b2 :: l3 =>
                   if negb (utf8_cont b2) then RuneError :: runes l1
                   else if (sz =? 3)%nat then
                     Z.lor (Z.lor (Z.shiftl (Z.land b0 15) 12) (Z.shiftl (Z.land b1 63) 6))
                           (Z.land b2 63) :: runes l3
                   else match l3 with
                        | b3 :: l4 =>
                            if negb (utf8_cont b3) then RuneError :: runes l1
                            else Z.lor (Z.lor (Z.shiftl (Z.land b0 7) 18)
                                              (Z.shiftl (Z.land b1 63) 12))
                                       (Z.lor (Z.shiftl (Z.land b2 63) 6) (Z.land b3 63))
                                 :: runes l4
                        | [] => RuneError :: runes l1
                        end
               | [] => RuneError :: runes l1
               end
      | _, [] => RuneError :: runes l1
      end
  end.

(** [byte('a'+digit)] or [byte('0'-26+digit)]. *)
Definition digitChar (digit : Z) : ascii :=
  if digit <? 26 then chr (add32 97 digit) else chr (add32 (48 - 26) digit).

(** The [for delta > ((base-tmin)*tmax)/2] loop of [adapt]; [delta] is at
    most [2^31] and is divided by 35 each round, so 32 rounds are never
    exhausted. *)
Fixpoint adapt_loop (fuel : nat) (delta k : Z) : Z * Z :=
  match fuel with
  | O => (delta, k)
  | S f =>
      if delta >? ((base - tmin) * tmax) / 2
      then adapt_loop f (quot32 delta (base - tmin)) (add32 k base)
      else (delta, k)
  end.

Definition adapt (delta points : Z) (first : bool) : Z :=
  let delta := if first then quot32 delta damp else quot32 delta 2 in
  let delta := add32 delta (quot32 delta points) in
  let '(delta, k) := adapt_loop 32 delta 0 in
  add32 k (quot32 (mul32 (base - tmin + 1) delta) (add32 delta skew)).

(** The inner [for { ... }] loop emitting the digits of [q] but the last;
    [q] is non-negative and below [2^31] and the divisor [base - t] is at
    least 10, so 32 rounds are never exhausted ([Panic] marks that
    unreachable case). *)
Fixpoint emit_digits (fuel : nat) (q k bias : Z) (buf : string) : outcome (Z * string) :=
  match fuel with
  | O => Panic
  | S f =>
      let t := sub32 k bias in
      let t := if t <? tmin then tmin else if t >? tmax then tmax else t in
      if q <? t then Ret (q, buf)
      else
        let digit := add32 t (rem32 (sub32 q t) (sub32 base t)) in
        emit_digits f (quot32 (sub32 q t) (sub32 base t)) (add32 k base) bias
          (push buf (digitChar digit))
  end.

(** The state [(d, bias, h, rem, buf)] of [encode]'s loops. *)
Definition encState : Type := Z * Z * Z * Z * string.

(** One [for _, r := range s] pass encoding every rune equal to [n]. *)
Fixpoint encode_pass (rs : list Z) (n b : Z) (st : encState) : outcome encState :=
  match rs with
  | [] => Ret st
  | r :: rs' =>
      let '(d, bias, h, rem, buf) := st in
      if r <? n then
        let d := add32 d 1 in
        if d <? 0 then Fail errInvalidDomain
        else encode_pass rs' n b (d, bias, h, rem, buf)
      else if r >? n then encode_pass rs' n b st
      else
        '(q, buf) ← emit_digits 32 d base bias buf;
        let buf := push buf (digitChar q) in
        let bias := adapt d (add32 h 1) (h =? b) in
        encode_pass rs' n b (0, bias, add32 h 1, rem - 1, buf)
  end.

(** The outer [for rem > 0] loop. Every round encodes at least one of the
    [rem] remaining non-ASCII runes, so [length rs + 1] rounds suffice. *)
Fixpoint encode_loop (fuel : nat) (rs : list Z) (n b : Z) (st : encState) : outcome string :=
  match fuel with
  | O => Panic
  | S f =>
      let '(d, bias, h, rem, buf) := st in
      if rem >? 0 then
        let m := fold_left (fun m r => if (m >? r) && (r >=? n) then r else m) rs 2147483647 in
        let d := add32 d (mul32 (sub32 m n) (add32 h 1)) in
        let n := m in
        if d <? 0 then Fail errInvalidDomain
        else
          '(d, bias, h, rem, buf) ← encode_pass rs n b (d, bias, h, rem, buf);
          encode_loop f rs (add32 n 1) b (add32 d 1, bias, h, rem, buf)
      else Ret buf
  end.

Definition encode (s : string) (buf : string) : outcome string :=
  let rs := runes (bytes s) in
  let buf := buf ++ "xn--" in
  let '(b, rem, buf) :=
    fold_left (fun '(b, rem, buf) r =>
                 if r <? 128 then (add32 b 1, rem, push buf (chr r))
                 else (b, rem + 1, buf)) rs (0, 0, buf) in
  let buf := if b >? 0 then push buf "-" else buf in
  encode_loop (S (List.length rs)) rs initialN b (0, initialBias, b, rem, buf).

(** [toASCII]: each call of [encode] gets the empty slice [buf[:0]]. *)
Definition toASCII (domain : string) : outcome string :=
  if isASCII domain then Ret domain
  else
    labels ← mapM (fun l => if isASCII l then Ret l else encode l "") (Split domain ".");
    Ret (Join labels ".").

(** ** Host canonicalization (jar.go) *)

(** [hasPort]. Go ranges over the runes of [addr] with their byte index;
    a [':'] byte is never part of a multi-byte UTF-8 sequence, so the
    colons it meets are exactly the [':'] bytes. [addr[i-1]] is read at
    each colon. *)
Fixpoint hasPort_loop (addr : string) (i : Z) (rest : string) (colons : Z) (rbrack : bool)
    : outcome (Z * bool) :=
  match rest with
  | EmptyString => Ret (colons, rbrack)
  | String c rest' =>
      if Ascii.eqb c ":" then
        prev ← at_ addr (i - 1);
        hasPort_loop addr (i + 1) rest' (colons + 1) (Ascii.eqb prev "]")
      else hasPort_loop addr (i + 1) rest' colons rbrack
  end.

Definition hasPort (addr : string) : outcome bool :=
  if len addr =? 0 then Ret false
  else
    '(colons, rbrack) ← hasPort_loop addr 0 addr 0 false;
    if colons =? 0 then Ret false
    else if colons =? 1 then Ret true
    else c0 ← at_ addr 0; Ret (Ascii.eqb c0 "[" && rbrack).

Definition canonicalHost (host : string) : outcome string :=
  let host := ToLower host in
  hp ← hasPort host;
  if (hp : bool) then (host ← splitHostPort env host; toASCII host)
  else toASCII host.

(** [hasDotSuffix]: [s] ends in ["." + suffix]. *)
Definition hasDotSuffix (s suffix : string) : outcome bool :=
  if len s >? len suffix then
    c ← at_ s (len s - len suffix - 1);
    if Ascii.eqb c "." then
      t ← slice s (len s - len suffix) (len s);
      Ret (String.eqb t suffix)
    else Ret false
  else Ret false.

(** [isIP]. *)
Definition isIP (host : string) : bool := parseIP env host.

(** A [PublicSuffixList]: [None] is the nil interface. *)
Definition PublicSuffixList : Type := option (string -> string).

(** [validateDomain]: the cookie's domain and whether it is host-only. *)
Definition validateDomain (host domain : string) (psl : PublicSuffixList)
    : outcome (string * bool) :=
  if String.eqb domain "" then Ret (host, true)
  else if isIP host then Fail errNoHostname
  else
    c0 ← at_ domain 0;
    domain ← (if Ascii.eqb c0 "." then slice domain 1 (len domain) else Ret domain);
    malformed ← (if String.eqb domain "" then Ret true
                 else c ← at_ domain 0;
                      if Ascii.eqb c "." then Ret true
                      else c' ← at_ domain (len domain - 1); Ret (Ascii.eqb c' "."));
    if (malformed : bool) then Fail errMalformedDomain
    else
      let domain := ToLower domain in
      match psl with
      | None => Ret (domain, false)
      | Some ps =>
          let suffix := ps domain in
          isPublic ← (if String.eqb suffix "" then Ret false
                      else ds ← hasDotSuffix domain suffix; Ret (negb ds));
          if (isPublic : bool) then
            if String.eqb host domain then Ret (host, true) else Fail errIllegalDomain
          else
            foreign ← (if String.eqb host domain then Ret false
                       else ds ← hasDotSuffix host domain; Ret (negb ds));
            if (foreign : bool) then Fail errIllegalDomain else Ret (domain, false)
      end.

(** [domainRoot]. *)
Definition domainRoot (host : string) (psl : PublicSuffixList) : outcome string :=
  if isIP host then Ret host
  else
    match psl with
    | None => Ret ""
    | Some ps =>
        let suffix := ps host in
        if String.eqb suffix host then Ret host
        else
          let i := len host - len suffix in
          if i >? 0 then
            c ← at_ host (i - 1);
            if Ascii.eqb c "." then
              pre ← slice host 0 (i - 1);
              slice host (LastIndexByte pre "." + 1) (len host)
            else Ret ""
          else Ret ""
    end.

End Package.

(** ** Cookies and jar entries *)

(** [Cookie] (cookie.go). [MaxAge] is a Go [int]. *)
Record Cookie := mkCookie {
  Name : string;
  Value : string;
  Domain : string;
  Path : string;
  Expires : Z;
  Secure : bool;
  HttpOnly : bool;
  MaxAge : Z;
  Unparsed : list string
}.

Definition zeroCookie : Cookie := mkCookie "" "" "" "" 0 false false 0 [].

(** [jarEntry]; the fields it shares with [Cookie] carry an [e] prefix. *)
Record jarEntry := mkEntry {
  Root : string;
  Key : string;
  Created : Z;
  eExpires : Z;
  HostOnly : bool;
  eName : string;
  eValue : string;
  eDomain : string;
  ePath : string;
  eSecure : bool;
  eHttpOnly : bool
}.

Definition withExpires (e : jarEntry) (t : Z) : jarEntry :=
  mkEntry (Root e) (Key e) (Created e) t (HostOnly e) (eName e) (eValue e)
          (eDomain e) (ePath e) (eSecure e) (eHttpOnly e).

Definition withBookkeeping (e : jarEntry) (root key : string) : jarEntry :=
  mkEntry root key (Created e) (eExpires e) (HostOnly e) (eName e) (eValue e)
          (eDomain e) (ePath e) (eSecure e) (eHttpOnly e).

(** [int64] wrap-around, for [time.Duration]. *)
Definition i64 (z : Z) : Z := ((z + 2^63) mod 2^64) - 2^63.
Definition Second : Z := 1000000000.

Definition Bucket : Type := gmap string jarEntry.

Record Jar := mkJar {
  psl : PublicSuffixList;
  ent : gmap string Bucket
}.

Definition NewJar (p : PublicSuffixList) : Jar := mkJar p ∅.

Section Jar.
Variable env : GoEnv.

(** [newEntry]: the entry and whether it is to be removed. *)
Definition newEntry (c : Cookie) (host : string) (p : PublicSuffixList) (now : Z)
    : outcome (jarEntry * bool) :=
  '(domain, hostOnly) ← validateDomain env host (Domain c) p;
  path ← (if String.eqb (Path c) "" then Ret "/"
          else c0 ← at_ (Path c) 0;
               if Ascii.eqb c0 "/" then Ret (Path c) else Ret "/");
  let entry := mkEntry "" "" now 0 hostOnly (Name c) (Value c) domain path
                       (Secure c) (HttpOnly c) in
  let finish (e : jarEntry) : outcome (jarEntry * bool) :=
    root ← domainRoot env host p;
    Ret (withBookkeeping e root (eDomain e ++ ";" ++ ePath e ++ ";" ++ eName e), false) in
  if MaxAge c <? 0 then Ret (entry, true)
  else if MaxAge c >? 0 then finish (withExpires entry (now + i64 (MaxAge c * Second)))
  else if negb (Expires c =? 0) then
    if Expires c >? now then finish (withExpires entry (Expires c))
    else Ret (entry, true)
  else finish entry.

(** [Jar.set]. *)
Definition set (j : Jar) (entry : jarEntry) : Jar :=
  let bucket := default ∅ (ent j !! Root entry) in
  mkJar (psl j) (<[Root entry := <[Key entry := entry]> bucket]> (ent j)).

(** [Jar.remove]. *)
Definition remove (j : Jar) (entry : jarEntry) : Jar :=
  match ent j !! Root entry with
  | None => j
  | Some bucket =>
      let bucket := delete (Key entry) bucket in
      if (size bucket =? 0)%nat then mkJar (psl j) (delete (Root entry) (ent j))
      else mkJar (psl j) (<[Root entry := bucket]> (ent j))
  end.

Definition validScheme (scheme : string) : bool :=
  String.eqb scheme "http" || String.eqb scheme "https".

(** [Jar.SetCookie]: the returned error and the jar afterwards. *)
Definition SetCookie (j : Jar) (scheme host path : string) (c : Cookie) (now : Z)
    : outcome unit * Jar :=
  if negb (validScheme scheme) then (Fail errInvalidScheme, j)
  else
    match canonicalHost env host with
    | Panic => (Panic, j)
    | Fail e => (Fail e, j)
    | Ret host =>
        match newEntry c host (psl j) now with
        | Panic => (Panic, j)
        | Fail e => (Fail e, j)
        | Ret (entry, rm) => if rm then (Ret tt, remove j entry) else (Ret tt, set j entry)
        end
    end.

(** [jarEntry.shouldSend]. *)
Definition shouldSend (entry : jarEntry) (scheme host path : string) : outcome bool :=
  let pathMatch : outcome bool :=
    if negb (String.eqb path (ePath entry)) then
      if negb (HasPrefix path (ePath entry)) then Ret false
      else
        last ← at_ (ePath entry) (len (ePath entry) - 1);
        if negb (Ascii.eqb last "/") then
          next ← at_ path (len (ePath entry));
          Ret (Ascii.eqb next "/")
        else Ret true
    else Ret true in
  if eSecure entry && negb (String.eqb scheme "https") then Ret false
  else if negb (String.eqb (eDomain entry) host) then
    if HostOnly entry then Ret false
    else ds ← hasDotSuffix host (eDomain entry); if (ds : bool) then pathMatch else Ret false
  else pathMatch.

Definition expired (entry : jarEntry) (now : Z) : bool :=
  negb (eExpires entry =? 0) && negb (eExpires entry >? now).

(** The [for _, entry := range bucket] loop of [Cookies] over the entries
    of the bucket as it was when the loop started. An entry deleted before
    it is reached is not produced (Go's map iteration rule). The loop
    returns its outcome and the bucket as far as it got. *)
Fixpoint cookies_loop (entries : list (string * jarEntry)) (bucket : Bucket)
    (scheme host path : string) (now : Z) (acc : list Cookie) : outcome (list Cookie) * Bucket :=
  match entries with
  | [] => (Ret acc, bucket)
  | (k, entry) :: rest =>
      match bucket !! k with
      | None => cookies_loop rest bucket scheme host path now acc
      | Some _ =>
          let bucket :=
            if expired entry now
            then delete (eDomain entry ++ ";" ++ ePath entry ++ ";" ++ eName entry) bucket
            else bucket in
          match shouldSend entry scheme host path with
          | Ret true =>
              cookies_loop rest bucket scheme host path now
                (acc ++ [mkCookie (eName entry) (eValue entry) "" "" 0 false false 0 []])
          | Ret false => cookies_loop rest bucket scheme host path now acc
          | Fail e => (Fail e, bucket)
          | Panic => (Panic, bucket)
          end
      end
  end.

(** [Jar.Cookies]: the cookies (or error) and the jar afterwards. The
    bucket is the map stored in [j.ent], so the loop's deletions happen in
    the jar. *)
Definition Cookies (j : Jar) (scheme host path : string) (now : Z)
    : outcome (list Cookie) * Jar :=
  if negb (validScheme scheme) then (Fail errInvalidScheme, j)
  else
    match canonicalHost env host with
    | Panic => (Panic, j)
    | Fail e => (Fail e, j)
    | Ret host =>
        match domainRoot env host (psl j) with
        | Panic => (Panic, j)
        | Fail e => (Fail e, j)
        | Ret root =>
            let bucket := default ∅ (ent j !! root) in
            let '(res, bucket') :=
              cookies_loop (map_to_list bucket) bucket scheme host path now [] in
            let ent' := match ent j !! root with
                        | Some _ => <[root := bucket']> (ent j)
                        | None => ent j
                        end in
            match res with
            | Ret cs =>
                if (size bucket' =? 0)%nat then (Ret cs, mkJar (psl j) (delete root ent'))
                else (Ret cs, mkJar (psl j) ent')
            | Fail e => (Fail e, mkJar (psl j) ent')
            | Panic => (Panic, mkJar (psl j) ent')
            end
        end
    end.

End Jar.

(** ** The codec's parser (cookie.go, [Parse]) *)

(** The [chars] table built by [init]: bit [nameChar], [valueChar] and
    [attrChar] of each byte. *)
Definition nameChar : Z := 1.
Definition valueChar : Z := 2.
Definition attrChar : Z := 4.

Definition dquote : ascii := "034".

Definition chars (c : ascii) : Z :=
  let b := byte_of c in
  if (32 <=? b) && (b <? 127) then
    let inb (l : string) := existsb (fun x => Ascii.eqb x c) (list_ascii_of_string l) in
    Z.lor (Z.lor
      (if negb (inb "()<>@,;:\/[]?={} ") && negb (Ascii.eqb c dquote) && negb (Ascii.eqb c "009")
       then nameChar else 0)
      (if negb (inb ";\") && negb (Ascii.eqb c dquote) then valueChar else 0))
      (if negb (Ascii.eqb c ";") then attrChar else 0)
  else 0.

Definition allHave (bit : Z) (s : string) : bool :=
  negb (String.eqb s "") &&
  forallb (fun c => negb (Z.land (chars c) bit =? 0)) (list_ascii_of_string s).

Definition isValidName (s : string) : bool := allHave nameChar s.
Definition isValidValue (s : string) : bool := allHave valueChar s.
Definition isValidAttr (s : string) : bool := allHave attrChar s.

Definition parseName (raw : string) : string * bool :=
  if isValidName raw then (raw, true) else ("", false).

(** [parseValue]: unwraps one pair of double quotes. *)
Definition parseValue (raw : string) : outcome (string * bool) :=
  unwrap ← (if len raw >=? 2 then
              c0 ← at_ raw 0; cl ← at_ raw (len raw - 1);
              Ret (Ascii.eqb c0 dquote && Ascii.eqb cl dquote)
            else Ret false);
  raw ← (if (unwrap : bool) then slice raw 1 (len raw - 1) else Ret raw);
  if isValidValue raw then Ret (raw, true) else Ret ("", false).

(** [isDomainName]: the loop over the bytes with [prev], [ok] and [n]. *)
Fixpoint isDomainName_loop (s : string) (prev : ascii) (ok : bool) (n : Z) : bool :=
  match s with
  | EmptyString => negb (Ascii.eqb prev "-" || (n >? 63)) && ok
  | String c s' =>
      let b := byte_of c in
      if (97 <=? b) && (b <=? 122) || (65 <=? b) && (b <=? 90) then
        isDomainName_loop s' c true (n + 1)
      else if (48 <=? b) && (b <=? 57) then isDomainName_loop s' c ok (n + 1)
      else if Ascii.eqb c "-" then
        if Ascii.eqb prev "." then false else isDomainName_loop s' c ok (n + 1)
      else if Ascii.eqb c "." then
        if Ascii.eqb prev "." || Ascii.eqb prev "-" then false
        else if (n >? 63) || (n =? 0) then false
        else isDomainName_loop s' c ok 0
      else false
  end.

Definition isDomainName (s : string) : bool :=
  if (len s =? 0) || (len s >? 255) then false
  else
    let s := match s with
             | String "." s' => s'
             | _ => s
             end in
    isDomainName_loop s "." false 0.

Section Codec.
Variable env : GoEnv.

Definition isValidDomain (s : string) : bool :=
  isDomainName s || (parseIP env s && (IndexByte s ":" <? 0)).

(** [key[0] | 0x20] and the like. *)
Definition lowerBit (c : ascii) : ascii := chr (Z.lor (byte_of c) 32).

(** [len(key) == len(word)] and [key[i]|0x20 == word[i]] for [i >= 1],
    except at the positions of [exact], compared without [| 0x20]. *)
Definition keyIs (key word : string) (exact : list nat) : bool :=
  (String.length key =? String.length word)%nat &&
  forallb (fun i =>
    match String.get i key, String.get i word with
    | Some k, Some w =>
        if existsb (Nat.eqb i) exact then Ascii.eqb k w else Ascii.eqb (lowerBit k) w
    | _, _ => false
    end) (seq 1 (pred (String.length word))).

Definition RFC1123 : string := "Mon, 02 Jan 2006 15:04:05 MST".

Definition setDomain (c : Cookie) (v : string) : Cookie :=
  mkCookie (Name c) (Value c) v (Path c) (Expires c) (Secure c) (HttpOnly c) (MaxAge c) (Unparsed c).
Definition setPath (c : Cookie) (v : string) : Cookie :=
  mkCookie (Name c) (Value c) (Domain c) v (Expires c) (Secure c) (HttpOnly c) (MaxAge c) (Unparsed c).
Definition setExpires (c : Cookie) (v : Z) : Cookie :=
  mkCookie (Name c) (Value c) (Domain c) (Path c) v (Secure c) (HttpOnly c) (MaxAge c) (Unparsed c).
Definition setSecure (c : Cookie) : Cookie :=
  mkCookie (Name c) (Value c) (Domain c) (Path c) (Expires c) true (HttpOnly c) (MaxAge c) (Unparsed c).
Definition setHttpOnly (c : Cookie) : Cookie :=
  mkCookie (Name c) (Value c) (Domain c) (Path c) (Expires c) (Secure c) true (MaxAge c) (Unparsed c).
Definition setMaxAge (c : Cookie) (v : Z) : Cookie :=
  mkCookie (Name c) (Value c) (Domain c) (Path c) (Expires c) (Secure c) (HttpOnly c) v (Unparsed c).
Definition addUnparsed (c : Cookie) (a : string) : Cookie :=
  mkCookie (Name c) (Value c) (Domain c) (Path c) (Expires c) (Secure c) (HttpOnly c) (MaxAge c)
           (Unparsed c ++ [a]).

(** [parseAttr]: the updated cookie. The three [fmt.Errorf] values built
    for an invalid attribute, an invalid value and an empty key are
    discarded by the source, so they have no effect here either. *)
Definition parseAttr (c : Cookie) (raw : string) : outcome Cookie :=
  let eq := IndexByte raw "=" in
  kv ← (if eq >=? 0 then
          key ← slice raw 0 eq;
          rest ← slice raw (eq + 1) (len raw);
          '(val, _) ← parseValue rest;
          Ret (key, val)
        else Ret (raw, ""));
  let '(key, val) := kv in
  k0 ← at_ key 0;
  let unparsed := Ret (addUnparsed c raw) in
  let sel := lowerBit k0 in
  if Ascii.eqb sel "d" then
    if negb (keyIs key "domain" []) then unparsed
    else
      d ← slice val 1 (len val);
      if negb (isValidDomain d) then Fail (errParse "invalid Domain value")
      else Ret (setDomain c val)
  else if Ascii.eqb sel "e" then
    if negb (keyIs key "expires" []) then unparsed
    else
      match timeParse env RFC1123 val with
      | Ret t => Ret (setExpires c t)
      | Panic => Panic
      | Fail _ =>
          match timeParse env "Mon, 02-Jan-2006 15:04:05 MST" val with
          | Ret t => Ret (setExpires c t)
          | Panic => Panic
          | Fail _ => Fail (errParse "invalid Expires value")
          end
      end
  else if Ascii.eqb sel "h" then
    if negb (keyIs key "httponly" []) then unparsed else Ret (setHttpOnly c)
  else if Ascii.eqb sel "m" then
    if negb (keyIs key "max-age" [3%nat]) then unparsed
    else
      match atoi env val with
      | Ret n =>
          if n <? 0 then Fail (errParse "invalid Max-Age value")
          else if n =? 0 then Ret (setMaxAge c (-1)) else Ret (setMaxAge c n)
      | Panic => Panic
      | Fail _ => Fail (errParse "invalid Max-Age value")
      end
  else if Ascii.eqb sel "p" then
    if negb (keyIs key "path" []) then unparsed else Ret (setPath c val)
  else if Ascii.eqb sel "s" then
    if negb (keyIs key "secure" []) then unparsed else Ret (setSecure c)
  else unparsed.

Definition isSpTab (c : ascii) : bool := Ascii.eqb c " " || Ascii.eqb c "009".

(** The two loops of [trim]; [len s + 1] rounds are never exhausted. *)
Fixpoint trimL (fuel : nat) (s : string) (l r : Z) : outcome Z :=
  match fuel with
  | O => Ret l
  | S f => if l <=? r then c ← at_ s l; if isSpTab c then trimL f s (l + 1) r else Ret l
           else Ret l
  end.

Fixpoint trimR (fuel : nat) (s : string) (l r : Z) : outcome Z :=
  match fuel with
  | O => Ret r
  | S f => if r >? l then c ← at_ s r; if isSpTab c then trimR f s l (r - 1) else Ret r
           else Ret r
  end.

Definition trim (s : string) : outcome string :=
  l ← trimL (S (String.length s)) s 0 (len s - 1);
  r ← trimR (S (String.length s)) s l (len s - 1);
  slice s l (r + 1).

(** The attribute loop [for 0 <= s && s < len(raw)]; each round drops at
    least one byte of [raw], so [len raw + 1] rounds are never exhausted. *)
Fixpoint parse_attrs (fuel : nat) (c : Cookie) (raw : string) (s : Z) : outcome Cookie :=
  match fuel with
  | O => Panic
  | S f =>
      if (0 <=? s) && (s <? len raw) then
        raw ← slice raw (s + 1) (len raw);
        let s := IndexByte raw ";" in
        part ← (if s <? 0 then trim raw else p ← slice raw 0 s; trim p);
        c ← parseAttr c part;
        parse_attrs f c raw s
      else Ret c
  end.

Definition Parse (raw : string) : outcome Cookie :=
  let s := IndexByte raw ";" in
  let s := if s <? 0 then len raw else s in
  p ← slice raw 0 s;
  part ← trim p;
  let eq := IndexByte part "=" in
  if eq <? 0 then Fail (errParse "missing cookie value")
  else
    name ← slice part 0 eq;
    value ← slice part (eq + 1) (len part);
    let '(name, ok) := parseName name in
    if negb ok then Fail (errParse "invalid cookie name")
    else
      '(value, ok) ← parseValue value;
      if negb ok then Fail (errParse "invalid cookie value")
      else parse_attrs (S (String.length raw)) (mkCookie name value "" "" 0 false false 0 []) raw s.

End Codec.

(** ** A concrete environment for evaluating the code at given inputs *)

Definition isDigit (c : ascii) : bool :=
  let b := byte_of c in (48 <=? b) && (b <=? 57).

Fixpoint decimal (s : string) (acc : Z) : Z :=
  match s with
  | EmptyString => acc
  | String c s' => decimal s' (acc * 10 + (byte_of c - 48))
  end.

Definition allDigits (s : string) : bool :=
  negb (String.eqb s "") && forallb isDigit (list_ascii_of_string s).

(** [net.ParseIP] on the inputs evaluated below: a dotted IPv4 quad, or a
    string with a colon (an IPv6 literal). *)
Definition sampleParseIP (s : string) : bool :=
  (Z.of_nat (List.length (Split s ".")) =? 4) &&
  forallb (fun p => allDigits p && (len p <=? 3) && (decimal p 0 <=? 255)) (Split s ".")
  || (0 <=? IndexByte s ":").

(** [net.SplitHostPort]: the host before the last colon, unbracketed. *)
Definition sampleSplitHostPort (s : string) : outcome string :=
  let i := LastIndexByte s ":" in
  if i <? 0 then Fail errSplitHostPort
  else
    h ← slice s 0 i;
    if (2 <=? len h) && HasPrefix h "[" then slice h 1 (len h - 1) else Ret h.

Definition sampleAtoi (s : string) : outcome Z :=
  if allDigits s then Ret (decimal s 0) else Fail (errParse "atoi").

(** No date is parsed in the inputs evaluated below. *)
Definition sampleEnv : GoEnv := {|
  unicodeToLower := fun s => s;
  parseIP := sampleParseIP;
  splitHostPort := sampleSplitHostPort;
  timeParse := fun _ _ => Fail (errParse "time");
  atoi := sampleAtoi
|}.

(** A public suffix list whose public suffixes are the single labels
    ([PublicSuffix("www.example.com") = "com"], [PublicSuffix("com") = "com"]). *)
Definition lastLabel (s : string) : string :=
  match String.length s with
  | O => ""
  | _ => let i := LastIndexByte s "." in
         String.substring (Z.to_nat (i + 1)) (String.length s) s
  end.

Definition comPSL : PublicSuffixList := Some lastLabel.

(** ** Inputs of the scenarios below *)

(** [j.ent[root][key]]. *)
Definition entryAt (j : Jar) (root key : string) : option jarEntry :=
  ent j !! root ≫= lookup key.

(** The label ["bücher"] in UTF-8, and ["ü"]. *)
Definition buecher : string := "b" ++ String "195" (String "188" "cher").
Definition uuml : string := String "195" (String "188" EmptyString).

(** A cookie as the codec hands it over, without an [Expires] attribute. *)
Definition ck (name value domain path : string) (maxAge : Z) : Cookie :=
  mkCookie name value domain path 0 false false maxAge [].

(** The [{Name, Value}] cookie [Cookies] returns. *)
Definition nameValue (name value : string) : Cookie :=
  mkCookie name value "" "" 0 false false 0 [].

(** [www.example.com] sets a cookie for [.example.com] at time [t]. *)
Definition jScoped (t : Z) : Jar :=
  snd (SetCookie sampleEnv (NewJar comPSL) "https" "www.example.com" "/"
         (ck "a" "b" ".example.com" "" 0) t).

(** A host-only cookie with [Max-Age=1], set at time 1. *)
Definition jMaxAge1 : Jar :=
  snd (SetCookie sampleEnv (NewJar comPSL) "https" "www.example.com" "/"
         (ck "a" "b" "" "" 1) 1).

(** A host-only session cookie, set at time 1. *)
Definition jSession : Jar :=
  snd (SetCookie sampleEnv (NewJar comPSL) "https" "www.example.com" "/"
         (ck "a" "b" "" "" 0) 1).

(** Without a public suffix list, [example.com] sets a cookie for
    [evil.com]. *)
Definition jForeign : Jar :=
  snd (SetCookie sampleEnv (NewJar None) "http" "example.com" "/"
         (ck "a" "b" "evil.com" "" 0) 1).

(** [jMaxAge1] and a host-only session cookie [c=d], set at time 1. *)
Definition jTwo : Jar :=
  snd (SetCookie sampleEnv jMaxAge1 "https" "www.example.com" "/" (ck "c" "d" "" "" 0) 1).

(** An entry for [example.com] with path [/foo]. *)
Definition fooEntry (secure : bool) : jarEntry :=
  mkEntry "example.com" "example.com;/foo;a" 0 0 true "a" "b" "example.com" "/foo" secure false.

(** ** Serialization (cookie.go, [Marshal]) *)

(** [shouldQuoteValue]: reads [s[0]] and [s[len(s)-1]]. *)
Definition shouldQuoteValue (s : string) : outcome bool :=
  first ← at_ s 0;
  last ← at_ s (len s - 1);
  Ret (Ascii.eqb first " " || Ascii.eqb first "," || Ascii.eqb last " " || Ascii.eqb last ",").

(** [time.Time.Unix]: whole seconds since 1970, from nanoseconds since
    Go's zero time (year 1). *)
Definition Unix (t : Z) : Z := t / Second - 62135596800.

(** [strconv.Itoa]. *)
Fixpoint itoa_digits (fuel : nat) (n : Z) (acc : string) : string :=
  match fuel with
  | O => acc
  | S f =>
      let acc := String (chr (48 + n mod 10)) acc in
      if n <? 10 then acc else itoa_digits f (n / 10) acc
  end.

Definition Itoa (n : Z) : string :=
  if n <? 0 then "-" ++ itoa_digits 64 (- n) EmptyString else itoa_digits 64 n EmptyString.

Definition quoted (v : string) : string := String dquote (v ++ String dquote EmptyString).

Section Marshal.
Variable env : GoEnv.
(** [c.Expires.UTC().Format(time.RFC1123)]. *)
Variable formatRFC1123UTC : Z -> string.

(** The loop over [c.Unparsed]. *)
Fixpoint marshalUnparsed (l : list string) : outcome string :=
  match l with
  | [] => Ret EmptyString
  | a :: l' =>
      if negb (isValidAttr a) then Fail (errParse "invalid attribute")
      else rest ← marshalUnparsed l'; Ret ("; " ++ a ++ rest)
  end.

(** [Cookie.Marshal]. *)
Definition Marshal (c : Cookie) (attrs : bool) : outcome string :=
  if negb (isValidName (Name c)) then Fail (errParse "invalid cookie name")
  else if negb (isValidValue (Value c)) then Fail (errParse "invalid cookie value")
  else
    q ← shouldQuoteValue (Value c);
    let nv := Name c ++ "=" ++ (if (q : bool) then quoted (Value c) else Value c) in
    if negb attrs then Ret nv
    else
      dom ← (if String.eqb (Domain c) "" then Ret EmptyString
             else if negb (isValidDomain env (Domain c)) then Fail (errParse "invalid Domain value")
             else Ret ("; Domain=" ++ Domain c));
      pth ← (if String.eqb (Path c) "" then Ret EmptyString
             else if negb (isValidAttr (Path c)) then Fail (errParse "invalid Path value")
             else Ret ("; Path=" ++ Path c));
      let exp := if Unix (Expires c) >? 0
                 then "; Expires=" ++ formatRFC1123UTC (Expires c) else EmptyString in
      let ma := if MaxAge c >? 0 then "; Max-Age=" ++ Itoa (MaxAge c)
                else if MaxAge c <? 0 then "; Max-Age=0" else EmptyString in
      let ho := if HttpOnly c then "; HttpOnly" else EmptyString in
      let sec := if Secure c then "; Secure" else EmptyString in
      un ← marshalUnparsed (Unparsed c);
      Ret (nv ++ dom ++ pth ++ exp ++ ma ++ ho ++ sec ++ un).

End Marshal.

(** ** Invariants of the jar *)

Global Instance jarEntry_eq_dec : EqDecision jarEntry.
Proof. solve_decision. Defined.

Global Instance Cookie_eq_dec : EqDecision Cookie.
Proof. solve_decision. Defined.

(** No bucket is present while empty. *)
Definition no_empty_buckets (j : Jar) : Prop :=
  map_Forall (fun _ (b : Bucket) => b <> ∅) (ent j).

(** Every entry sits in the bucket of its [Root] under its [Key], and its
    key is [Domain;Path;Name]. *)
Definition keys_consistent (j : Jar) : Prop :=
  map_Forall (fun r (b : Bucket) =>
    map_Forall (fun k e =>
      Root e = r /\ Key e = k /\ k = eDomain e ++ ";" ++ ePath e ++ ";" ++ eName e) b)
    (ent j).

Global Instance no_empty_buckets_dec (j : Jar) : Decision (no_empty_buckets j).
Proof. unfold no_empty_buckets, Bucket. apply _. Defined.

Global Instance keys_consistent_dec (j : Jar) : Decision (keys_consistent j).
Proof. unfold keys_consistent, Bucket. apply _. Defined.

(** The path [newEntry] computes. *)
Definition entryPath (p : string) : outcome string :=
  if String.eqb p "" then Ret "/"
  else c0 ← at_ p 0; if Ascii.eqb c0 "/" then Ret p else Ret "/".

(** The number of [':'] bytes of a string. *)
Definition colonCount (s : string) : nat :=
  List.count_occ Ascii.ascii_dec (list_ascii_of_string s) ":"%char.

(** ** Helper lemmas *)

Lemma get_some_lt (s : string) (n : nat) :
  (n < String.length s)%nat -> exists c, String.get n s = Some c.
Proof.
  revert n; induction s as [|c s IH]; intros n Hn; simpl in *; [lia|].
  destruct n as [|n]; [eauto|]. apply IH; lia.
Qed.

Lemma at_get (s : string) (i : Z) (c : ascii) :
  0 <= i -> String.get (Z.to_nat i) s = Some c -> at_ s i = Ret c.
Proof.
  intros Hi Hg. unfold at_. destruct (Z.ltb_spec i 0); [lia|]. now rewrite Hg.
Qed.

Lemma at_in_range (s : string) (i : Z) :
  0 <= i < len s -> exists c, at_ s i = Ret c /\ String.get (Z.to_nat i) s = Some c.
Proof.
  intros Hi. unfold len in Hi.
  destruct (get_some_lt s (Z.to_nat i)) as [c Hc]; [lia|].
  exists c. split; [apply at_get|]; auto; lia.
Qed.

Lemma slice_in_range (s : string) (lo hi : Z) :
  0 <= lo <= hi -> hi <= len s ->
  slice s lo hi = Ret (String.substring (Z.to_nat lo) (Z.to_nat (hi - lo)) s).
Proof.
  intros H1 H2. unfold slice.
  destruct (Z.leb_spec 0 lo), (Z.leb_spec lo hi), (Z.leb_spec hi (len s)); simpl; auto; lia.
Qed.

Lemma substring_full (s : string) : String.substring 0 (String.length s) s = s.
Proof. induction s as [|c s IH]; simpl; congruence. Qed.

(** [hasDotSuffix] never panics. *)
Lemma hasDotSuffix_total (s t : string) : exists b, hasDotSuffix s t = Ret b.
Proof.
  unfold hasDotSuffix. destruct (Z.gtb_spec (len s) (len t)); [|eauto].
  assert (Hlt : 0 <= len t) by (unfold len; lia).
  destruct (at_in_range s (len s - len t - 1)) as [c [Hc _]]; [lia|].
  rewrite Hc. cbn [mbind outcome_bind].
  destruct (Ascii.eqb c "."); [|eauto].
  rewrite slice_in_range by lia. cbn. eauto.
Qed.

Lemma HasPrefix_longer (s p : string) :
  HasPrefix s p = true -> s <> p -> (String.length p < String.length s)%nat.
Proof.
  unfold HasPrefix, len. intros H Hne.
  apply andb_prop in H as [H1 H2]. apply Z.leb_le in H1. apply String.eqb_eq in H2.
  destruct (Nat.eq_dec (String.length p) (String.length s)) as [E|E]; [|lia].
  exfalso. apply Hne. rewrite <- H2, E. symmetry. apply substring_full.
Qed.

(** Every entry [newEntry] builds has a non-empty path. *)
Lemma newEntry_path_nonempty (env : GoEnv) (c : Cookie) (host : string)
    (p : PublicSuffixList) (now : Z) (e : jarEntry) (rm : bool) :
  newEntry env c host p now = Ret (e, rm) -> ePath e <> "".
Proof.
  unfold newEntry.
  destruct (validateDomain env host (Domain c) p) as [[domain hostOnly]| |];
    cbn [mbind outcome_bind]; try discriminate.
  remember (if String.eqb (Path c) "" then Ret "/"
            else c0 ← at_ (Path c) 0; if Ascii.eqb c0 "/" then Ret (Path c) else Ret "/")
    as P eqn:HP.
  assert (Hpath : forall path, P = Ret path -> path <> "").
  { intros path. subst P. destruct (String.eqb (Path c) "") eqn:He.
    - intros H. injection H as <-. discriminate.
    - apply String.eqb_neq in He as Hne.
      destruct (at_ (Path c) 0); cbn; try discriminate.
      destruct (Ascii.eqb a "/"); intros [= <-]; [exact Hne|discriminate]. }
  destruct P as [path| |]; cbn [mbind outcome_bind]; try discriminate.
  pose proof (Hpath path eq_refl) as Hne.
  repeat match goal with
         | |- context [if ?b then _ else _] => destruct b
         | |- context [domainRoot env host p] => destruct (domainRoot env host p); cbn
         end; intros H; cbn in H; try discriminate; injection H as He _; subst e; cbn; exact Hne.
Qed.

(** [hasPort_loop] over bytes without a colon changes nothing. *)
Lemma hasPort_loop_no_colon (addr : string) (i : Z) (rest : string) (colons : Z) (rbrack : bool) :
  forallb (fun c => negb (Ascii.eqb c ":")) (list_ascii_of_string rest) = true ->
  hasPort_loop addr i rest colons rbrack = Ret (colons, rbrack).
Proof.
  revert i. induction rest as [|c rest IH]; intros i H; [reflexivity|].
  cbn in H. apply andb_prop in H as [Hc H].
  cbn [hasPort_loop]. apply negb_true_iff in Hc. rewrite Hc. auto.
Qed.

Lemma map_asciiLower_id (l : list ascii) :
  forallb (fun c => Ascii.eqb (asciiLower c) c) l = true -> map asciiLower l = l.
Proof.
  induction l as [|c l IH]; cbn; intros H; [reflexivity|].
  apply andb_prop in H as [Hc H]. apply Ascii.eqb_eq in Hc. rewrite Hc, IH; auto.
Qed.

(** With a public suffix list, [validateDomain] only returns a
    non-host-only domain that the host equals or is a dot-suffix
    extension of: the path C3 finds unchecked is the [psl == nil] one. *)
Lemma validateDomain_psl_domain_match (env : GoEnv) (host domain d : string)
    (ps : string -> string) :
  validateDomain env host domain (Some ps) = Ret (d, false) ->
  host = d \/ hasDotSuffix host d = Ret true.
Proof.
  unfold validateDomain.
  destruct (String.eqb domain ""); [discriminate|].
  destruct (isIP env host); [discriminate|].
  destruct (at_ domain 0) as [c0| |]; cbn [mbind outcome_bind]; try discriminate.
  destruct (if Ascii.eqb c0 "." then slice domain 1 (len domain) else Ret domain)
    as [dom| |]; cbn [mbind outcome_bind]; try discriminate.
  destruct (if String.eqb dom "" then Ret true else _) as [[|]| |];
    cbn [mbind outcome_bind]; try discriminate.
  set (low := ToLower env dom).
  destruct (if String.eqb (ps low) "" then Ret false else _) as [[|]| |];
    cbn [mbind outcome_bind]; try discriminate.
  - destruct (String.eqb host low); discriminate.
  - destruct (String.eqb host low) eqn:Hh; cbn [mbind outcome_bind].
    + intros [= <-]. left. apply String.eqb_eq. exact Hh.
    + destruct (hasDotSuffix host low) as [[|]| |] eqn:Hds; cbn; try discriminate.
      intros [= <-]. right. exact Hds.
Qed.

(** ** The claims *)

(** C1 (jar.go, [Jar.Cookies]). An entry whose [Expires] is non-zero and
    not after [now] is deleted from its bucket, but the loop does not skip
    it: it is still tested with [shouldSend] and returned by the very call
    that evicts it. A host-only cookie with [Max-Age=1] set at time 1
    expires at [1 + 1s]; [Cookies] at exactly that time empties the jar and
    still returns the cookie. *)
Theorem C1_evicted_entry_still_returned :
  entryAt jMaxAge1 "example.com" "www.example.com;/;a" =
    Some (mkEntry "example.com" "www.example.com;/;a" 1 (1 + Second) true "a" "b"
                  "www.example.com" "/" false false) /\
  expired (mkEntry "example.com" "www.example.com;/;a" 1 (1 + Second) true "a" "b"
                   "www.example.com" "/" false false) (1 + Second) = true /\
  fst (Cookies sampleEnv jMaxAge1 "https" "www.example.com" "/" (1 + Second)) =
    Ret [nameValue "a" "b"] /\
  ent (snd (Cookies sampleEnv jMaxAge1 "https" "www.example.com" "/" (1 + Second))) = ∅.
Proof. vm_compute. repeat split. Qed.

(** C2 (jar.go, [newEntry], [Jar.remove]). For a cookie to be deleted
    [newEntry] returns before it fills in [Root] and [Key], so [remove]
    looks for key [""] in bucket [""]: an existing entry with the same key
    stays. Deleting the session cookie of [jSession] with [Max-Age=-1]
    succeeds and leaves the jar as it was, entry included. *)
Theorem C2_delete_keeps_existing_entry :
  SetCookie sampleEnv jSession "https" "www.example.com" "/" (ck "a" "b" "" "" (-1)) 2
    = (Ret tt, jSession) /\
  entryAt jSession "example.com" "www.example.com;/;a" =
    Some (mkEntry "example.com" "www.example.com;/;a" 1 0 true "a" "b"
                  "www.example.com" "/" false false).
Proof. vm_compute. split; reflexivity. Qed.

(** C3 (jar.go, [validateDomain]). The check that the host domain-matches
    the cookie's domain sits inside [if psl != nil]: without a public suffix
    list, [example.com] stores a non-host-only cookie for [evil.com], which
    is neither [example.com] nor a dot-suffix of it, and [evil.com] is sent
    it. *)
Theorem C3_foreign_domain_without_psl :
  entryAt jForeign "" "evil.com;/;a" =
    Some (mkEntry "" "evil.com;/;a" 1 0 false "a" "b" "evil.com" "/" false false) /\
  "example.com" <> "evil.com" /\
  hasDotSuffix "example.com" "evil.com" = Ret false /\
  fst (Cookies sampleEnv jForeign "http" "evil.com" "/" 2) = Ret [nameValue "a" "b"].
Proof. vm_compute. repeat split; congruence. Qed.

(** C4 (jar.go, [hasPort], [canonicalHost]). On a host that starts with
    [':'], [hasPort] reads [addr[-1]]: both [Cookies] and [SetCookie]
    panic, for every jar, path, cookie and time. *)
Theorem C4_leading_colon_panics (env : GoEnv) (j : Jar) (path : string) (c : Cookie) (now : Z) :
  fst (Cookies env j "http" ":" path now) = Panic /\
  fst (SetCookie env j "http" ":" path c now) = Panic.
Proof. split; reflexivity. Qed.

(** C6 (jar.go, [validateDomain], [domainRoot], [shouldSend]). With the
    single-label public suffix list, [www.example.com] setting a cookie
    for [.example.com] stores a non-host-only entry for [example.com] in
    bucket [example.com]; [foo.example.com] is sent it and
    [notexample.com] is not, at any time. *)
Theorem C6_scoping (t now : Z) :
  fst (SetCookie sampleEnv (NewJar comPSL) "https" "www.example.com" "/"
         (ck "a" "b" ".example.com" "" 0) t) = Ret tt /\
  entryAt (jScoped t) "example.com" "example.com;/;a" =
    Some (mkEntry "example.com" "example.com;/;a" t 0 false "a" "b" "example.com" "/" false false) /\
  fst (Cookies sampleEnv (jScoped t) "https" "foo.example.com" "/" now) = Ret [nameValue "a" "b"] /\
  fst (Cookies sampleEnv (jScoped t) "https" "notexample.com" "/" now) = Ret [].
Proof. vm_compute. repeat split. Qed.

(** C10 (cookie.go, [Parse], [parseAttr]). [parseAttr] builds but never
    returns its errors: an empty [Domain] value reaches [val[1:]] and an
    empty attribute reaches [key[0]], so [Parse] panics on
    ["a=b; Domain="] and on ["a=b;"]. *)
Theorem C10_parse_panics (env : GoEnv) :
  Parse env "a=b; Domain=" = Panic /\ Parse env "a=b;" = Panic.
Proof. split; reflexivity. Qed.

(** C7 (jar.go, [jarEntry.shouldSend]). A secure entry is withheld from a
    scheme other than [https]; for an entry with a non-empty path (every
    entry [newEntry] builds, see [newEntry_path_nonempty]) a request path
    other than the entry's is refused unless it has the entry's path as a
    prefix and either that path ends in ['/'] or the request path has a
    ['/'] right after the prefix. A cookie with path [/foo] is sent for
    [/foo/bar] and [/foo] but not for [/foobar], and a secure one not over
    [http]. *)
Theorem C7_shouldSend_scheme_and_path :
  (forall (e : jarEntry) (scheme host path : string),
     eSecure e = true -> scheme <> "https" -> shouldSend e scheme host path = Ret false) /\
  (forall (e : jarEntry) (scheme host path : string),
     ePath e <> "" -> path <> ePath e ->
     ~ (HasPrefix path (ePath e) = true /\
        (String.get (pred (String.length (ePath e))) (ePath e) = Some "/"%char \/
         String.get (String.length (ePath e)) path = Some "/"%char)) ->
     shouldSend e scheme host path = Ret false) /\
  shouldSend (fooEntry false) "https" "example.com" "/foo/bar" = Ret true /\
  shouldSend (fooEntry false) "https" "example.com" "/foo" = Ret true /\
  shouldSend (fooEntry false) "https" "example.com" "/foobar" = Ret false /\
  shouldSend (fooEntry true) "http" "example.com" "/foo" = Ret false.
Proof.
  split; [|split; [|vm_compute; repeat split]].
  - intros e scheme host path Hs Hsch. unfold shouldSend.
    rewrite Hs. apply String.eqb_neq in Hsch. rewrite Hsch. reflexivity.
  - intros e scheme host path Hne Hdiff Hnc. unfold shouldSend.
    assert (Hpm : forall b : bool, b = negb (String.eqb path (ePath e)) ->
      (if b then
         if negb (HasPrefix path (ePath e)) then Ret false
         else last ← at_ (ePath e) (len (ePath e) - 1);
              if negb (Ascii.eqb last "/") then
                next ← at_ path (len (ePath e)); Ret (Ascii.eqb next "/")
              else Ret true
       else Ret true) = Ret false).
    { intros b ->. pose proof (proj2 (String.eqb_neq _ _) Hdiff) as Hd. rewrite Hd. cbn [negb].
      destruct (HasPrefix path (ePath e)) eqn:Hp; [|reflexivity]. cbn [negb].
      pose proof (HasPrefix_longer _ _ Hp Hdiff) as Hlen.
      assert (Hpos : (0 < String.length (ePath e))%nat)
        by (destruct (ePath e); [congruence|cbn; lia]).
      destruct (at_in_range (ePath e) (len (ePath e) - 1)) as [last [Hl Hgl]];
        [unfold len; lia|].
      rewrite Hl. cbn [mbind outcome_bind].
      destruct (Ascii.eqb_spec last "/") as [->|Hns].
      - exfalso. apply Hnc. split; [reflexivity|left].
        rewrite <- Hgl. f_equal. unfold len. lia.
      - cbn [negb].
        destruct (at_in_range path (len (ePath e))) as [nx [Hn Hgn]]; [unfold len; lia|].
        rewrite Hn. cbn [mbind outcome_bind].
        destruct (Ascii.eqb_spec nx "/") as [->|]; [|reflexivity].
        exfalso. apply Hnc. split; [reflexivity|right].
        rewrite <- Hgn. f_equal. unfold len. lia. }
    destruct (eSecure e && negb (String.eqb scheme "https")); [reflexivity|].
    destruct (negb (String.eqb (eDomain e) host)); [|apply Hpm; reflexivity].
    destruct (HostOnly e); [reflexivity|].
    destruct (hasDotSuffix_total host (eDomain e)) as [b Hb]. rewrite Hb.
    cbn [mbind outcome_bind]. destruct b; [apply Hpm; reflexivity|reflexivity].
Qed.

(** Witness of C7 at the entry with path [/foo] and request path [/bar]. *)
Lemma C7_shouldSend_scheme_and_path_witness :
  shouldSend (fooEntry false) "https" "example.com" "/bar" = Ret false /\
  shouldSend (fooEntry true) "http" "example.com" "/foo/bar" = Ret false.
Proof.
  destruct C7_shouldSend_scheme_and_path as [Hsec [Hpath _]]. split.
  - apply Hpath; [discriminate|discriminate|].
    vm_compute. intros [H _]. discriminate H.
  - apply Hsec; [reflexivity|discriminate].
Defined.

(** C8, counterexample: host canonicalization lower-cases, so it is not
    the identity on the pure-ASCII host ["Already-ASCII.com"]. *)
Lemma C8_canonicalHost_lowercases :
  isASCII "Already-ASCII.com" = true /\
  canonicalHost sampleEnv "Already-ASCII.com" = Ret "already-ascii.com" /\
  "already-ascii.com" <> "Already-ASCII.com".
Proof. vm_compute. repeat split. discriminate. Qed.

(** C8 (punycode file, [encode], [toASCII]; jar.go, [canonicalHost]),
    amended. [encode] produces ["xn--bcher-kva"], ["xn--"] and ["xn--tda"]
    for ["bücher"], [""] and ["ü"]; [toASCII] is the identity on every
    pure-ASCII host; [canonicalHost] is the identity on every pure-ASCII
    host without upper-case letters and without a colon (it lower-cases and
    strips a port otherwise), e.g. on ["already-ascii.com"]. *)
Theorem C8_encode_vectors_ascii_identity :
  encode buecher "" = Ret "xn--bcher-kva" /\
  encode "" "" = Ret "xn--" /\
  encode uuml "" = Ret "xn--tda" /\
  (forall h : string, isASCII h = true -> toASCII h = Ret h) /\
  (forall (env : GoEnv) (h : string),
     isASCII h = true ->
     forallb (fun c => Ascii.eqb (asciiLower c) c && negb (Ascii.eqb c ":"))
             (list_ascii_of_string h) = true ->
     canonicalHost env h = Ret h).
Proof.
  split; [vm_compute; reflexivity|]. split; [vm_compute; reflexivity|].
  split; [vm_compute; reflexivity|].
  assert (Hto : forall h : string, isASCII h = true -> toASCII h = Ret h).
  { intros h H. unfold toASCII. rewrite H. reflexivity. }
  split; [exact Hto|].
  intros env h Ha Hc.
  assert (Hl : forallb (fun c => Ascii.eqb (asciiLower c) c) (list_ascii_of_string h) = true).
  { apply forallb_forall. intros x Hx. eapply forallb_forall in Hc; [|exact Hx].
    apply andb_prop in Hc as [Hc _]. exact Hc. }
  assert (Hn : forallb (fun c => negb (Ascii.eqb c ":")) (list_ascii_of_string h) = true).
  { apply forallb_forall. intros x Hx. eapply forallb_forall in Hc; [|exact Hx].
    apply andb_prop in Hc as [_ Hc]. exact Hc. }
  unfold canonicalHost, ToLower. rewrite Ha, map_asciiLower_id, string_of_list_ascii_of_string by exact Hl.
  unfold hasPort. rewrite hasPort_loop_no_colon by exact Hn.
  destruct (len h =? 0); cbn; apply Hto; exact Ha.
Qed.

(** Witness of C8 at ["already-ascii.com"]. *)
Lemma C8_encode_vectors_ascii_identity_witness :
  canonicalHost sampleEnv "already-ascii.com" = Ret "already-ascii.com" /\
  toASCII "Already-ASCII.com" = Ret "Already-ASCII.com".
Proof.
  destruct C8_encode_vectors_ascii_identity as [_ [_ [_ [Hto Hcan]]]]. split.
  - apply Hcan; vm_compute; reflexivity.
  - apply Hto; vm_compute; reflexivity.
Defined.

(** C9 (jar.go, [Jar.SetCookie]). [SetCookie] returns its errors before it
    touches the jar: whenever it fails, the jar is the one it was given;
    with an invalid scheme it fails with [errInvalidScheme] whatever the
    jar holds. *)
Theorem C9_failed_SetCookie_leaves_jar (env : GoEnv) (j : Jar) (scheme host path : string)
    (c : Cookie) (now : Z) :
  (forall e : error, fst (SetCookie env j scheme host path c now) = Fail e ->
     snd (SetCookie env j scheme host path c now) = j) /\
  (validScheme scheme = false ->
     SetCookie env j scheme host path c now = (Fail errInvalidScheme, j)).
Proof.
  unfold SetCookie. destruct (validScheme scheme); cbn [negb].
  - split; [|discriminate].
    intros e. destruct (canonicalHost env host) as [h| |]; cbn; try reflexivity; try discriminate.
    destruct (newEntry env c h (psl j) now) as [[entry rm]| |]; cbn; try reflexivity.
    destruct rm; discriminate.
  - split; reflexivity.
Qed.

(** Witness of C9: a failed [SetCookie] (domain attribute on an IP host)
    and an invalid scheme. *)
Lemma C9_failed_SetCookie_leaves_jar_witness :
  snd (SetCookie sampleEnv jSession "https" "1.2.3.4" "/" (ck "a" "b" "example.com" "" 0) 2)
    = jSession /\
  SetCookie sampleEnv jSession "ftp" "www.example.com" "/" (ck "a" "b" "" "" 0) 2
    = (Fail errInvalidScheme, jSession).
Proof.
  split.
  - apply (proj1 (C9_failed_SetCookie_leaves_jar sampleEnv jSession "https" "1.2.3.4" "/"
                    (ck "a" "b" "example.com" "" 0) 2) errNoHostname).
    vm_compute. reflexivity.
  - apply (proj2 (C9_failed_SetCookie_leaves_jar sampleEnv jSession "ftp" "www.example.com" "/"
                    (ck "a" "b" "" "" 0) 2)).
    reflexivity.
Defined.

(** C5, counterexample: the public suffix list reports ["com"] for the
    domain ["com"], which is not a strict dot-suffix extension of it, and
    the host is not ["com"]; yet on the IP host ["1.2.3.4"]
    [validateDomain] fails with [errNoHostname], not [errIllegalDomain]:
    the IP check comes first. *)
Lemma C5_ip_host_fails_first :
  lastLabel "com" = "com" /\
  hasDotSuffix "com" "com" = Ret false /\
  validateDomain sampleEnv "1.2.3.4" "com" comPSL = Fail errNoHostname.
Proof. vm_compute. repeat split. Qed.

(** C5 (jar.go, [validateDomain]), amended. For a host that is not an IP
    address and a domain attribute that is well formed (after dropping one
    leading dot it is non-empty and neither starts nor ends with a dot),
    when the public suffix list reports a non-empty suffix of the
    lower-cased domain of which the domain is not a strict dot-suffix
    extension, validation fails with [errIllegalDomain] unless the host
    equals that domain, in which case the cookie is host-only for the
    host. *)
Theorem C5_public_suffix_domain (env : GoEnv) (host domain d0 : string) (ps : string -> string)
    (Hip : isIP env host = false)
    (Hd0 : d0 <> "")
    (Hfirst : String.get 0 d0 <> Some "."%char)
    (Hlast : String.get (pred (String.length d0)) d0 <> Some "."%char)
    (Hdom : domain = d0 \/ domain = String "." d0)
    (Hsuf : ps (ToLower env d0) <> "")
    (Hnds : hasDotSuffix (ToLower env d0) (ps (ToLower env d0)) = Ret false) :
  validateDomain env host domain (Some ps) =
    if String.eqb host (ToLower env d0) then Ret (host, true) else Fail errIllegalDomain.
Proof.
  destruct d0 as [|c0 r]; [congruence|].
  assert (Hc0 : Ascii.eqb c0 "." = false) by (apply Ascii.eqb_neq; cbn in Hfirst; congruence).
  destruct (get_some_lt (String c0 r) (pred (String.length (String c0 r)))) as [cl Hcl];
    [cbn; lia|].
  assert (Hcl' : Ascii.eqb cl "." = false) by (apply Ascii.eqb_neq; congruence).
  assert (Hat_last : at_ (String c0 r) (len (String c0 r) - 1) = Ret cl).
  { apply at_get; [unfold len; cbn; lia|]. rewrite <- Hcl. f_equal. unfold len. cbn [String.length]. lia. }
  (* The well-formedness check passes on [d0]. *)
  assert (Hwf : forall k : string -> outcome (string * bool),
    (domain ← Ret (String c0 r);
     malformed ← (if String.eqb domain "" then Ret true
                  else c ← at_ domain 0;
                       if Ascii.eqb c "." then Ret true
                       else c' ← at_ domain (len domain - 1); Ret (Ascii.eqb c' "."));
     if (malformed : bool) then Fail errMalformedDomain else k domain)
    = k (String c0 r)).
  { intros k. cbn [mbind outcome_bind String.eqb].
    replace (at_ (String c0 r) 0) with (Ret c0) by reflexivity. cbn [mbind outcome_bind].
    rewrite Hc0, Hat_last. cbn [mbind outcome_bind]. rewrite Hcl'. reflexivity. }
  unfold validateDomain.
  assert (Hne : String.eqb domain "" = false) by (destruct Hdom; subst; reflexivity).
  rewrite Hne, Hip.
  destruct Hdom as [-> | ->].
  - replace (at_ (String c0 r) 0) with (Ret c0) by reflexivity. cbn [mbind outcome_bind].
    rewrite Hc0. rewrite Hwf.
    apply String.eqb_neq in Hsuf. rewrite Hsuf, Hnds. reflexivity.
  - replace (at_ (String "." (String c0 r)) 0) with (Ret "."%char) by reflexivity.
    cbn [mbind outcome_bind]. rewrite (Ascii.eqb_refl ".").
    rewrite slice_in_range by (unfold len; cbn [String.length]; lia).
    replace (String.substring (Z.to_nat 1) (Z.to_nat (len (String "." (String c0 r)) - 1))
               (String "." (String c0 r)))
      with (String c0 r)
      by (unfold len; cbn [String.length]; rewrite Nat2Z.inj_succ, Z.sub_1_r, Z.pred_succ,
            Nat2Z.id; cbn [String.substring]; symmetry; apply (substring_full (String c0 r))).
    rewrite Hwf.
    apply String.eqb_neq in Hsuf. rewrite Hsuf, Hnds. reflexivity.
Qed.

(** Witness of C5: ["com"] on host ["example.com"] with the single-label
    public suffix list fails with [errIllegalDomain]. *)
Lemma C5_public_suffix_domain_witness :
  validateDomain sampleEnv "example.com" "com" comPSL =
    if String.eqb "example.com" (ToLower sampleEnv "com") then Ret ("example.com", true)
    else Fail errIllegalDomain.
Proof.
  apply (C5_public_suffix_domain sampleEnv "example.com" "com" "com" lastLabel).
  - reflexivity.
  - discriminate.
  - vm_compute. discriminate.
  - vm_compute. discriminate.
  - left. reflexivity.
  - vm_compute. discriminate.
  - vm_compute. reflexivity.
Defined.

(** ** Further properties of the code *)

Lemma bucket_insert_eq (b : Bucket) (k : string) (e : jarEntry) : <[k:=e]> b !! k = Some e.
Proof. exact (lookup_insert_eq (M:=gmap string) b k e). Qed.
Lemma bucket_insert_ne (b : Bucket) (k k' : string) (e : jarEntry) :
  k <> k' -> <[k:=e]> b !! k' = b !! k'.
Proof. exact (lookup_insert_ne (M:=gmap string) b k k' e). Qed.
Lemma bucket_delete_eq (b : Bucket) (k : string) : delete k b !! k = None.
Proof. exact (lookup_delete_eq (M:=gmap string) b k). Qed.
Lemma bucket_delete_ne (b : Bucket) (k k' : string) : k <> k' -> delete k b !! k' = b !! k'.
Proof. exact (lookup_delete_ne (M:=gmap string) b k k'). Qed.
Lemma bucket_empty (k : string) : (∅ : Bucket) !! k = None.
Proof. exact (lookup_empty (M:=gmap string) k). Qed.
Lemma bucket_size_empty (b : Bucket) : size b = 0%nat -> b = ∅.
Proof. exact (proj1 (map_size_empty_iff (M:=gmap string) b)). Qed.

Lemma entryAt_Some (j : Jar) (r k : string) (e : jarEntry) :
  entryAt j r k = Some e <-> exists b, ent j !! r = Some b /\ b !! k = Some e.
Proof.
  unfold entryAt. destruct (ent j !! r) as [b|]; cbn [mbind option_bind]; split.
  - eauto.
  - intros (b' & [= <-] & H). exact H.
  - discriminate.
  - intros (b' & H & _). discriminate.
Qed.

Lemma keys_consistent_entryAt (j : Jar) :
  keys_consistent j <->
  forall r k e, entryAt j r k = Some e ->
    Root e = r /\ Key e = k /\ k = eDomain e ++ ";" ++ ePath e ++ ";" ++ eName e.
Proof.
  unfold keys_consistent. split.
  - intros H r k e He. apply entryAt_Some in He as (b & Hb & Hk).
    exact (H r b Hb k e Hk).
  - intros H r b Hb k e Hk. apply H, entryAt_Some. eauto.
Qed.

Lemma entryAt_set (j : Jar) (e : jarEntry) (r k : string) :
  entryAt (set j e) r k = if decide (r = Root e /\ k = Key e) then Some e else entryAt j r k.
Proof.
  unfold entryAt, set; cbn [ent].
  destruct (decide (r = Root e)) as [->|Hr].
  - rewrite lookup_insert_eq. cbn [mbind option_bind].
    destruct (decide (k = Key e)) as [->|Hk].
    + rewrite bucket_insert_eq, decide_True; auto.
    + rewrite bucket_insert_ne by congruence. rewrite decide_False by tauto.
      destruct (ent j !! Root e); cbn [default]; [reflexivity|apply bucket_empty].
  - rewrite lookup_insert_ne by congruence. rewrite decide_False by tauto. reflexivity.
Qed.

Lemma entryAt_remove (j : Jar) (e : jarEntry) (r k : string) :
  entryAt (remove j e) r k = if decide (r = Root e /\ k = Key e) then None else entryAt j r k.
Proof.
  unfold remove.
  destruct (ent j !! Root e) as [b|] eqn:Hb.
  - destruct (decide (r = Root e)) as [->|Hr].
    + unfold entryAt. rewrite Hb. cbn [mbind option_bind].
      destruct (Nat.eqb_spec (size (delete (Key e) b)) 0) as [Hs|Hs]; cbn [ent].
      * rewrite lookup_delete_eq. cbn [mbind option_bind].
        apply bucket_size_empty in Hs.
        destruct (decide (k = Key e)) as [->|Hk].
        -- rewrite decide_True by auto. reflexivity.
        -- rewrite decide_False by tauto.
           rewrite <- (bucket_delete_ne b (Key e) k) by congruence. rewrite Hs.
           symmetry. apply bucket_empty.
      * rewrite lookup_insert_eq. cbn [mbind option_bind].
        destruct (decide (k = Key e)) as [->|Hk].
        -- rewrite decide_True by auto. apply bucket_delete_eq.
        -- rewrite decide_False by tauto. apply bucket_delete_ne. congruence.
    + rewrite decide_False by tauto.
      destruct (Nat.eqb_spec (size (delete (Key e) b)) 0); unfold entryAt; cbn [ent].
      * rewrite lookup_delete_ne by congruence. reflexivity.
      * rewrite lookup_insert_ne by congruence. reflexivity.
  - destruct (decide (r = Root e /\ k = Key e)) as [[-> ->]|]; [|reflexivity].
    unfold entryAt. rewrite Hb. reflexivity.
Qed.

(** [set] stores the entry under its root and key and leaves every other
    slot as it was. *)
Theorem set_entryAt (j : Jar) (e : jarEntry) (r k : string) :
  entryAt (set j e) r k = if decide (r = Root e /\ k = Key e) then Some e else entryAt j r k.
Proof. exact (entryAt_set j e r k). Qed.

(** [remove] empties the slot of the entry's root and key and leaves every
    other slot as it was, also when it drops the emptied bucket. *)
Theorem remove_entryAt (j : Jar) (e : jarEntry) (r k : string) :
  entryAt (remove j e) r k = if decide (r = Root e /\ k = Key e) then None else entryAt j r k.
Proof. exact (entryAt_remove j e r k). Qed.

Lemma entryPath_spec (p : string) :
  entryPath p = Ret (if HasPrefix p "/" then p else "/").
Proof.
  destruct p as [|c p]; [reflexivity|].
  assert (H : HasPrefix (String c p) "/" = Ascii.eqb c "/").
  { unfold HasPrefix, len. cbn [String.length substring].
    rewrite (proj2 (Z.leb_le _ _)) by lia. cbn [andb].
    replace (substring 0 0 p) with "" by (destruct p; reflexivity).
    destruct (Ascii.eqb_spec c "/") as [->|Hc]; [reflexivity|].
    apply String.eqb_neq. intros [= Hc']. congruence. }
  rewrite H. transitivity (if Ascii.eqb c "/" then Ret (String c p) else Ret "/"); [reflexivity|].
  destruct (Ascii.eqb c "/"); reflexivity.
Qed.

Lemma newEntry_inv (env : GoEnv) (c : Cookie) (host : string) (p : PublicSuffixList)
    (now : Z) (e : jarEntry) (rm : bool) :
  newEntry env c host p now = Ret (e, rm) ->
  exists domain hostOnly,
    validateDomain env host (Domain c) p = Ret (domain, hostOnly) /\
    let path := if HasPrefix (Path c) "/" then Path c else "/" in
    let entry := mkEntry "" "" now 0 hostOnly (Name c) (Value c) domain path
                         (Secure c) (HttpOnly c) in
    (rm = true /\ e = entry /\
       (MaxAge c < 0 \/ (MaxAge c = 0 /\ Expires c <> 0 /\ Expires c <= now))) \/
    (rm = false /\ exists root exp,
       domainRoot env host p = Ret root /\
       e = withBookkeeping (withExpires entry exp) root (domain ++ ";" ++ path ++ ";" ++ Name c) /\
       ((MaxAge c > 0 /\ exp = now + i64 (MaxAge c * Second)) \/
        (MaxAge c = 0 /\ Expires c <> 0 /\ Expires c > now /\ exp = Expires c) \/
        (MaxAge c = 0 /\ Expires c = 0 /\ exp = 0))).
Proof.
  unfold newEntry.
  destruct (validateDomain env host (Domain c) p) as [[domain hostOnly]| |];
    cbn [mbind outcome_bind]; try discriminate.
  fold (entryPath (Path c)). rewrite entryPath_spec. cbn [mbind outcome_bind].
  intros H. exists domain, hostOnly. split; [reflexivity|]. cbn zeta.
  set (path := if HasPrefix (Path c) "/" then Path c else "/") in *.
  destruct (Z.ltb_spec (MaxAge c) 0).
  { injection H as <- <-. left. auto. }
  destruct (Z.gtb_spec (MaxAge c) 0).
  { destruct (domainRoot env host p) as [root| |] eqn:Hr; cbn [mbind outcome_bind] in H; try discriminate.
    injection H as <- <-. right. split; [reflexivity|].
    exists root, (now + i64 (MaxAge c * Second)).
    split; [reflexivity|]. split; [reflexivity|]. left; split; [lia|reflexivity]. }
  destruct (Z.eqb_spec (Expires c) 0) as [He|He]; cbn [negb] in H.
  - destruct (domainRoot env host p) as [root| |] eqn:Hr; cbn [mbind outcome_bind] in H; try discriminate.
    injection H as <- <-. right. split; [reflexivity|].
    exists root, 0. split; [reflexivity|]. split; [reflexivity|]. right; right; lia.
  - destruct (Z.gtb_spec (Expires c) now).
    + destruct (domainRoot env host p) as [root| |] eqn:Hr; cbn [mbind outcome_bind] in H; try discriminate.
      injection H as <- <-. right. split; [reflexivity|].
      exists root, (Expires c). split; [reflexivity|]. split; [reflexivity|]. right; left; lia.
    + injection H as <- <-. left. split; [reflexivity|]. split; [reflexivity|]. right; lia.
Qed.

Lemma bucket_insert_non_empty (b : Bucket) (k : string) (e : jarEntry) : <[k:=e]> b <> ∅.
Proof. exact (insert_non_empty (M:=gmap string) b k e). Qed.

Lemma bucket_size_non_empty (b : Bucket) : size b <> 0%nat -> b <> ∅.
Proof. intros Hs ->. apply Hs. exact (map_size_empty (M:=gmap string) (A:=jarEntry)). Qed.

Lemma set_no_empty_buckets (j : Jar) (e : jarEntry) :
  no_empty_buckets j -> no_empty_buckets (set j e).
Proof.
  unfold no_empty_buckets, set. cbn [ent]. intros H r b.
  rewrite lookup_insert. destruct (decide (Root e = r)) as [<-|Hr].
  - intros [= <-]. apply bucket_insert_non_empty.
  - apply H.
Qed.

Lemma remove_no_empty_buckets (j : Jar) (e : jarEntry) :
  no_empty_buckets j -> no_empty_buckets (remove j e).
Proof.
  unfold no_empty_buckets, remove. intros H.
  destruct (ent j !! Root e) as [b|]; [|exact H].
  destruct (Nat.eqb_spec (size (delete (Key e) b)) 0) as [Hs|Hs]; cbn [ent]; intros r b'.
  - rewrite lookup_delete_Some. intros [_ Hr]. exact (H r b' Hr).
  - rewrite lookup_insert. destruct (decide (Root e = r)) as [<-|Hr].
    + intros [= <-]. apply bucket_size_non_empty. exact Hs.
    + apply H.
Qed.

Lemma set_keys_consistent (j : Jar) (e : jarEntry) :
  keys_consistent j -> Key e = eDomain e ++ ";" ++ ePath e ++ ";" ++ eName e ->
  keys_consistent (set j e).
Proof.
  rewrite !keys_consistent_entryAt. intros H Hk r k e'.
  rewrite entryAt_set. destruct (decide (r = Root e /\ k = Key e)) as [[-> ->]|_].
  - intros [= <-]. auto.
  - apply H.
Qed.

Lemma remove_keys_consistent (j : Jar) (e : jarEntry) :
  keys_consistent j -> keys_consistent (remove j e).
Proof.
  rewrite !keys_consistent_entryAt. intros H r k e'.
  rewrite entryAt_remove. destruct (decide (r = Root e /\ k = Key e)); [discriminate|apply H].
Qed.

Lemma newEntry_kept_key (env : GoEnv) (c : Cookie) (host : string) (p : PublicSuffixList)
    (now : Z) (e : jarEntry) :
  newEntry env c host p now = Ret (e, false) ->
  Key e = eDomain e ++ ";" ++ ePath e ++ ";" ++ eName e.
Proof.
  intros H. apply newEntry_inv in H as (domain & hostOnly & _ & H); cbn zeta in H.
  destruct H as [[? _]|(_ & root & exp & _ & -> & _)]; [discriminate|reflexivity].
Qed.

(** [SetCookie] keeps the two invariants of the jar: no bucket is left
    empty and every entry is stored under its root and its key. *)
Theorem SetCookie_keeps_invariants (env : GoEnv) (j : Jar) (scheme host path : string)
    (c : Cookie) (now : Z) :
  no_empty_buckets j -> keys_consistent j ->
  no_empty_buckets (snd (SetCookie env j scheme host path c now)) /\
  keys_consistent (snd (SetCookie env j scheme host path c now)).
Proof.
  intros H1 H2. unfold SetCookie.
  destruct (validScheme scheme); cbn [negb snd]; [|auto].
  destruct (canonicalHost env host) as [h| |]; cbn [snd]; auto.
  destruct (newEntry env c h (psl j) now) as [[e [|]]| |] eqn:He; cbn [snd]; auto.
  - split; [apply remove_no_empty_buckets | apply remove_keys_consistent]; auto.
  - split; [apply set_no_empty_buckets | apply set_keys_consistent]; auto.
    eapply newEntry_kept_key. exact He.
Qed.

Lemma SetCookie_keeps_invariants_witness :
  (no_empty_buckets (jScoped 1) /\ keys_consistent (jScoped 1)) /\
  no_empty_buckets (snd (SetCookie sampleEnv (jScoped 1) "http" "example.com" "/x"
                           (ck "c" "d" "" "/x" 0) 2)) /\
  keys_consistent (snd (SetCookie sampleEnv (jScoped 1) "http" "example.com" "/x"
                          (ck "c" "d" "" "/x" 0) 2)).
Proof.
  assert (Hn : no_empty_buckets (jScoped 1))
    by (apply (bool_decide_eq_true_1 (no_empty_buckets _)); vm_compute; reflexivity).
  assert (Hk : keys_consistent (jScoped 1))
    by (apply (bool_decide_eq_true_1 (keys_consistent _)); vm_compute; reflexivity).
  split; [split; assumption|].
  apply (SetCookie_keeps_invariants sampleEnv (jScoped 1) "http" "example.com" "/x"
           (ck "c" "d" "" "/x" 0) 2 Hn Hk).
Defined.

(** The loop of [Cookies] only deletes from the bucket. *)
Lemma cookies_loop_subseteq (l : list (string * jarEntry)) (b : Bucket)
    (scheme host path : string) (now : Z) (acc : list Cookie) (k : string) (e : jarEntry) :
  snd (cookies_loop l b scheme host path now acc) !! k = Some e -> b !! k = Some e.
Proof.
  revert b acc. induction l as [|[k0 e0] l IH]; intros b acc; cbn [cookies_loop]; [auto|].
  destruct (b !! k0) as [x|] eqn:Hk0; [|apply IH].
  assert (Hd : forall b', b' = (if expired e0 now
                                then delete (eDomain e0 ++ ";" ++ ePath e0 ++ ";" ++ eName e0) b
                                else b) -> b' !! k = Some e -> b !! k = Some e).
  { intros b' ->. destruct (expired e0 now); [|auto].
    destruct (decide (eDomain e0 ++ ";" ++ ePath e0 ++ ";" ++ eName e0 = k)) as [<-|Hne].
    - rewrite bucket_delete_eq. discriminate.
    - rewrite bucket_delete_ne by exact Hne. auto. }
  destruct (shouldSend e0 scheme host path) as [[|]| |]; cbn [snd];
    intros H; eapply Hd; try reflexivity; try exact H; eapply IH; exact H.
Qed.

(** A run of the loop that returns its cookies has deleted every expired
    entry it met whose key is [Domain;Path;Name]. *)
Lemma cookies_loop_evicts (l : list (string * jarEntry)) (b : Bucket)
    (scheme host path : string) (now : Z) (acc cs : list Cookie) :
  (forall k e, (k, e) ∈ l -> expired e now = true ->
     k = eDomain e ++ ";" ++ ePath e ++ ";" ++ eName e) ->
  fst (cookies_loop l b scheme host path now acc) = Ret cs ->
  forall k e, (k, e) ∈ l -> expired e now = true ->
    snd (cookies_loop l b scheme host path now acc) !! k = None.
Proof.
  revert b acc. induction l as [|[k0 e0] l IH]; intros b acc Hkeys Hret k e Hin Hexp.
  { apply elem_of_nil in Hin. contradiction. }
  assert (Hkeys' : forall k e, (k, e) ∈ l -> expired e now = true ->
                     k = eDomain e ++ ";" ++ ePath e ++ ";" ++ eName e).
  { intros k' e' Hin'. apply Hkeys. apply elem_of_cons. right. exact Hin'. }
  assert (Hnone : forall b' acc', b' !! k0 = None ->
            snd (cookies_loop l b' scheme host path now acc') !! k0 = None).
  { intros b' acc' Hb'. destruct (snd (cookies_loop l b' scheme host path now acc') !! k0)
      as [x|] eqn:Hx; [|reflexivity].
    apply cookies_loop_subseteq in Hx. congruence. }
  apply elem_of_cons in Hin as [[= Hk He]|Hin].
  - subst k e.
    cbn [cookies_loop] in *. destruct (b !! k0) as [x|] eqn:Hk0.
    + rewrite Hexp in *.
      assert (Hdel : delete (eDomain e0 ++ ";" ++ ePath e0 ++ ";" ++ eName e0) b !! k0 = None).
      { rewrite <- (Hkeys k0 e0) by (try apply elem_of_cons; auto). apply bucket_delete_eq. }
      destruct (shouldSend e0 scheme host path) as [[|]| |]; cbn [fst] in Hret;
        try discriminate; apply Hnone; exact Hdel.
    + apply Hnone. exact Hk0.
  - cbn [cookies_loop] in *. destruct (b !! k0) as [x|]; [|eapply IH; eauto].
    destruct (shouldSend e0 scheme host path) as [[|]| |]; cbn [fst] in Hret;
      try discriminate; eapply IH; eauto.
Qed.

(** Every cookie the loop outputs was in the accumulator or comes from an
    entry of the list that [shouldSend] accepts. *)
Lemma cookies_loop_sound (l : list (string * jarEntry)) (b : Bucket)
    (scheme host path : string) (now : Z) (acc cs : list Cookie) (c : Cookie) :
  fst (cookies_loop l b scheme host path now acc) = Ret cs -> c ∈ cs ->
  c ∈ acc \/ exists k e, (k, e) ∈ l /\ shouldSend e scheme host path = Ret true /\
                        c = mkCookie (eName e) (eValue e) "" "" 0 false false 0 [].
Proof.
  revert b acc. induction l as [|[k0 e0] l IH]; intros b acc Hret Hc; cbn [cookies_loop] in Hret.
  { injection Hret as <-. auto. }
  assert (Hl : forall b' acc', fst (cookies_loop l b' scheme host path now acc') = Ret cs ->
             (c ∈ acc -> c ∈ acc') ->
             c ∈ acc \/ (c ∈ acc' /\ c ∉ acc) \/
             exists k e, (k, e) ∈ (k0, e0) :: l /\ shouldSend e scheme host path = Ret true /\
                        c = mkCookie (eName e) (eValue e) "" "" 0 false false 0 []).
  { intros b' acc' H Hacc. destruct (IH b' acc' H Hc) as [Hin|(k & e & Hin & Hs & ->)].
    - destruct (decide (c ∈ acc)); auto.
    - right; right. exists k, e. split; [apply elem_of_cons; auto|auto]. }
  destruct (b !! k0) as [x|].
  2:{ destruct (Hl _ _ Hret (fun H => H)) as [?|[[? ?]|?]]; auto; contradiction. }
  destruct (shouldSend e0 scheme host path) as [[|]| |] eqn:Hs; cbn [fst] in Hret; try discriminate.
  - destruct (Hl _ _ Hret (fun H => proj2 (elem_of_app _ _ _) (or_introl H))) as [?|[[Hin Hn]|?]]; auto.
    apply elem_of_app in Hin as [?|Hin]; [contradiction|].
    apply list_elem_of_singleton in Hin as ->. right. exists k0, e0.
    split; [apply elem_of_cons; auto|auto].
  - destruct (Hl _ _ Hret (fun H => H)) as [?|[[? ?]|?]]; auto; contradiction.
Qed.

(** Conversely, when no key repeats, every key of the list is present in
    the bucket when the loop starts and an entry is only ever deleted under
    its own key, the loop outputs the cookie of every entry [shouldSend]
    accepts. *)
Lemma cookies_loop_complete (l : list (string * jarEntry)) (b : Bucket)
    (scheme host path : string) (now : Z) (acc cs : list Cookie) :
  NoDup l.*1 ->
  (forall k e, (k, e) ∈ l -> b !! k <> None) ->
  (forall k e, (k, e) ∈ l -> expired e now = true ->
     k = eDomain e ++ ";" ++ ePath e ++ ";" ++ eName e) ->
  fst (cookies_loop l b scheme host path now acc) = Ret cs ->
  (forall c, c ∈ acc -> c ∈ cs) /\
  forall k e, (k, e) ∈ l -> shouldSend e scheme host path = Ret true ->
    mkCookie (eName e) (eValue e) "" "" 0 false false 0 [] ∈ cs.
Proof.
  revert b acc. induction l as [|[k0 e0] l IH]; intros b acc Hnd Hpres Hkeys Hret.
  { cbn [cookies_loop fst] in Hret. injection Hret as <-. split; [auto|].
    intros k e Hin. apply elem_of_nil in Hin. contradiction. }
  cbn [fmap list_fmap fst] in Hnd. apply NoDup_cons in Hnd as [Hk0 Hnd].
  assert (Hb : b !! k0 <> None) by (apply (Hpres k0 e0), elem_of_cons; auto).
  set (b' := if expired e0 now
             then delete (eDomain e0 ++ ";" ++ ePath e0 ++ ";" ++ eName e0) b else b).
  assert (Hpres' : forall k e, (k, e) ∈ l -> b' !! k <> None).
  { intros k e Hin. assert (Hne : k0 <> k).
    { intros <-. apply Hk0. apply list_elem_of_fmap. exists (k0, e). auto. }
    unfold b'. destruct (expired e0 now) eqn:Hexp.
    - rewrite <- (Hkeys k0 e0) by (auto; apply elem_of_cons; auto).
      rewrite bucket_delete_ne by exact Hne. apply (Hpres k e), elem_of_cons. auto.
    - apply (Hpres k e), elem_of_cons. auto. }
  assert (Hkeys' : forall k e, (k, e) ∈ l -> expired e now = true ->
                     k = eDomain e ++ ";" ++ ePath e ++ ";" ++ eName e).
  { intros k e Hin. apply Hkeys, elem_of_cons. auto. }
  cbn [cookies_loop] in Hret. destruct (b !! k0) as [x|]; [|contradiction].
  fold b' in Hret.
  destruct (shouldSend e0 scheme host path) as [[|]| |] eqn:Hs; cbn [fst] in Hret; try discriminate.
  - destruct (IH b' _ Hnd Hpres' Hkeys' Hret) as [Hacc Hall]. split.
    + intros c Hc. apply Hacc, elem_of_app. auto.
    + intros k e Hin Hse. apply elem_of_cons in Hin as [[= -> ->]|Hin]; [|eauto].
      apply Hacc, elem_of_app. right. apply list_elem_of_singleton. reflexivity.
  - destruct (IH b' _ Hnd Hpres' Hkeys' Hret) as [Hacc Hall]. split; [exact Hacc|].
    intros k e Hin Hse. apply elem_of_cons in Hin as [[= -> ->]|Hin]; [congruence|eauto].
Qed.

(** What [Cookies] does to the jar when it returns its cookies. *)
Lemma Cookies_Ret_inv (env : GoEnv) (j j' : Jar) (scheme host path : string) (now : Z)
    (cs : list Cookie) :
  Cookies env j scheme host path now = (Ret cs, j') ->
  exists h r, validScheme scheme = true /\ canonicalHost env host = Ret h /\
    domainRoot env h (psl j) = Ret r /\
    let b0 := default ∅ (ent j !! r) in
    let res := cookies_loop (map_to_list b0) b0 scheme h path now [] in
    fst res = Ret cs /\ psl j' = psl j /\
    forall r', ent j' !! r' =
      if decide (r' = r) then
        (if (size (snd res) =? 0)%nat then None
         else match ent j !! r with Some _ => Some (snd res) | None => None end)
      else ent j !! r'.
Proof.
  unfold Cookies. destruct (validScheme scheme); cbn [negb]; [|discriminate].
  destruct (canonicalHost env host) as [h| |] eqn:Hh; try discriminate.
  destruct (domainRoot env h (psl j)) as [r| |] eqn:Hr; try discriminate.
  intros H. exists h, r. split; [reflexivity|]. split; [first [exact Hh|reflexivity]|]. split; [first [exact Hr|reflexivity]|].
  cbn zeta.
  destruct (cookies_loop (map_to_list (default ∅ (ent j !! r))) (default ∅ (ent j !! r))
              scheme h path now []) as [res b'] eqn:Hl.
  cbn [fst snd]. destruct res as [cs'| |]; try discriminate.
  destruct (Nat.eqb_spec (size b') 0) as [Hs|Hs]; injection H as <- <-; cbn [psl ent];
    (split; [reflexivity|]); (split; [reflexivity|]); intros r'.
  - destruct (decide (r' = r)) as [->|Hne].
    + apply lookup_delete_eq.
    + rewrite lookup_delete_ne by exact (not_eq_sym Hne).
      destruct (ent j !! r); [|reflexivity]. apply lookup_insert_ne. exact (not_eq_sym Hne).
  - destruct (decide (r' = r)) as [->|Hne].
    + destruct (ent j !! r) eqn:Er; [apply lookup_insert_eq|].
      exfalso. apply Hs. cbn in Hl. injection Hl as _ <-. exact (map_size_empty (M:=gmap string) (A:=jarEntry)).
    + destruct (ent j !! r); [|reflexivity]. apply lookup_insert_ne. exact (not_eq_sym Hne).
Qed.

Lemma bucket_elem_of_map_to_list (b : Bucket) (k : string) (e : jarEntry) :
  (k, e) ∈ map_to_list b <-> b !! k = Some e.
Proof. exact (elem_of_map_to_list (M:=gmap string) b k e). Qed.

Lemma bucket_NoDup_keys (b : Bucket) : NoDup (map_to_list b).*1.
Proof. exact (NoDup_fst_map_to_list (M:=gmap string) b). Qed.

(** When [Cookies] returns its cookies, the jar still has no empty bucket
    and every entry still sits under its root and key. *)
Theorem Cookies_keeps_invariants (env : GoEnv) (j j' : Jar) (scheme host path : string)
    (now : Z) (cs : list Cookie) :
  Cookies env j scheme host path now = (Ret cs, j') ->
  no_empty_buckets j -> keys_consistent j ->
  no_empty_buckets j' /\ keys_consistent j'.
Proof.
  intros H Hn Hk.
  apply Cookies_Ret_inv in H as (h & r & _ & _ & _ & _ & _ & Hent). cbn zeta in Hent.
  split.
  - intros r' b' Hb'. rewrite Hent in Hb'.
    destruct (decide (r' = r)) as [->|Hne]; [|exact (Hn r' b' Hb')].
    revert Hb'. destruct (size _ =? 0)%nat eqn:Hs; [discriminate|].
    destruct (ent j !! r); [|discriminate]. intros [= <-].
    apply bucket_size_non_empty. apply Nat.eqb_neq. exact Hs.
  - intros r' b' Hb' k e He. rewrite Hent in Hb'.
    destruct (decide (r' = r)) as [->|Hne]; [|exact (Hk r' b' Hb' k e He)].
    revert Hb'. destruct (size _ =? 0)%nat; [discriminate|].
    destruct (ent j !! r) as [b0|] eqn:E0; [|discriminate]. intros [= <-].
    apply cookies_loop_subseteq in He. exact (Hk r b0 E0 k e He).
Qed.

(** When [Cookies] returns its cookies, no entry left in the bucket it
    visited is expired at [now]. *)
Theorem Cookies_evicts_expired (env : GoEnv) (j j' : Jar) (scheme host path h r : string)
    (now : Z) (cs : list Cookie) :
  keys_consistent j ->
  Cookies env j scheme host path now = (Ret cs, j') ->
  canonicalHost env host = Ret h -> domainRoot env h (psl j) = Ret r ->
  forall k e, entryAt j' r k = Some e -> expired e now = false.
Proof.
  intros Hk H Hh Hr k e He.
  apply Cookies_Ret_inv in H as (h' & r' & _ & Hh' & Hr' & Hres & _ & Hent).
  rewrite Hh in Hh'. injection Hh' as <-. rewrite Hr in Hr'. injection Hr' as <-.
  cbn zeta in Hres, Hent.
  apply entryAt_Some in He as (b' & Hb' & He). rewrite Hent, decide_True in Hb' by reflexivity.
  revert Hb'. destruct (size _ =? 0)%nat; [discriminate|].
  destruct (ent j !! r) as [b0|] eqn:E0; [|discriminate]. intros [= <-].
  cbn [default from_option id] in Hres, He.
  destruct (expired e now) eqn:Hx; [exfalso|reflexivity].
  assert (Hin : (k, e) ∈ map_to_list b0).
  { apply bucket_elem_of_map_to_list. eapply cookies_loop_subseteq. exact He. }
  assert (Hkeys : forall k e, (k, e) ∈ map_to_list b0 -> expired e now = true ->
                    k = eDomain e ++ ";" ++ ePath e ++ ";" ++ eName e).
  { intros k' e' Hin' _. apply bucket_elem_of_map_to_list in Hin'.
    exact (proj2 (proj2 (Hk r b0 E0 k' e' Hin'))). }
  pose proof (cookies_loop_evicts _ _ _ _ _ _ _ _ Hkeys Hres k e Hin Hx) as Hnone.
  congruence.
Qed.

(** [Cookies] returns exactly the [{Name, Value}] cookies of the entries of
    the visited bucket that [shouldSend] accepts, expired ones included. *)
Theorem Cookies_returns_accepted (env : GoEnv) (j j' : Jar) (scheme host path h r : string)
    (now : Z) (cs : list Cookie) :
  keys_consistent j ->
  Cookies env j scheme host path now = (Ret cs, j') ->
  canonicalHost env host = Ret h -> domainRoot env h (psl j) = Ret r ->
  forall c, c ∈ cs <->
    exists k e, entryAt j r k = Some e /\ shouldSend e scheme h path = Ret true /\
                c = mkCookie (eName e) (eValue e) "" "" 0 false false 0 [].
Proof.
  intros Hk H Hh Hr c.
  apply Cookies_Ret_inv in H as (h' & r' & _ & Hh' & Hr' & Hres & _ & _).
  rewrite Hh in Hh'. injection Hh' as <-. rewrite Hr in Hr'. injection Hr' as <-.
  cbn zeta in Hres. split.
  - intros Hc. destruct (cookies_loop_sound _ _ _ _ _ _ _ _ c Hres Hc)
      as [Hnil|(k & e & Hin & Hs & ->)].
    { apply elem_of_nil in Hnil. contradiction. }
    apply bucket_elem_of_map_to_list in Hin.
    exists k, e. split; [|auto]. unfold entryAt.
    destruct (ent j !! r); cbn in Hin |- *; [exact Hin|].
    rewrite bucket_empty in Hin. discriminate.
  - intros (k & e & He & Hs & ->). apply entryAt_Some in He as (b0 & E0 & He).
    rewrite E0 in Hres. cbn [default from_option id] in Hres.
    apply (cookies_loop_complete _ _ _ _ _ _ _ _ (bucket_NoDup_keys b0)) in Hres as [_ Hall].
    + apply (Hall k e); [apply bucket_elem_of_map_to_list|]; assumption.
    + intros k' e' Hin. apply bucket_elem_of_map_to_list in Hin. congruence.
    + intros k' e' Hin _. apply bucket_elem_of_map_to_list in Hin.
      exact (proj2 (proj2 (Hk r b0 E0 k' e' Hin))).
Qed.

(** With no bucket for the host's root, [Cookies] returns no cookie and
    leaves the jar as it was. *)
Theorem Cookies_absent_bucket (env : GoEnv) (j : Jar) (scheme host path h r : string) (now : Z) :
  validScheme scheme = true ->
  canonicalHost env host = Ret h -> domainRoot env h (psl j) = Ret r ->
  ent j !! r = None ->
  Cookies env j scheme host path now = (Ret [], j).
Proof.
  intros Hs Hh Hr E. unfold Cookies. rewrite Hs, Hh, Hr, E. cbn.
  rewrite delete_id by exact E. destruct j. reflexivity.
Qed.

Lemma Cookies_keeps_invariants_witness :
  Cookies sampleEnv jTwo "https" "www.example.com" "/" (3 * Second) =
    (Ret [nameValue "c" "d"; nameValue "a" "b"],
     snd (Cookies sampleEnv jTwo "https" "www.example.com" "/" (3 * Second))) /\
  no_empty_buckets jTwo /\ keys_consistent jTwo /\
  no_empty_buckets (snd (Cookies sampleEnv jTwo "https" "www.example.com" "/" (3 * Second))) /\
  keys_consistent (snd (Cookies sampleEnv jTwo "https" "www.example.com" "/" (3 * Second))).
Proof.
  assert (H : Cookies sampleEnv jTwo "https" "www.example.com" "/" (3 * Second) =
    (Ret [nameValue "c" "d"; nameValue "a" "b"],
     snd (Cookies sampleEnv jTwo "https" "www.example.com" "/" (3 * Second))))
    by (vm_compute; reflexivity).
  assert (Hn : no_empty_buckets jTwo)
    by (apply (bool_decide_eq_true_1 (no_empty_buckets _)); vm_compute; reflexivity).
  assert (Hk : keys_consistent jTwo)
    by (apply (bool_decide_eq_true_1 (keys_consistent _)); vm_compute; reflexivity).
  split; [exact H|]. split; [exact Hn|]. split; [exact Hk|].
  exact (Cookies_keeps_invariants sampleEnv jTwo _ "https" "www.example.com" "/"
           (3 * Second) _ H Hn Hk).
Defined.

Lemma Cookies_evicts_expired_witness :
  keys_consistent jTwo /\
  Cookies sampleEnv jTwo "https" "www.example.com" "/" (3 * Second) =
    (Ret [nameValue "c" "d"; nameValue "a" "b"],
     snd (Cookies sampleEnv jTwo "https" "www.example.com" "/" (3 * Second))) /\
  canonicalHost sampleEnv "www.example.com" = Ret "www.example.com" /\
  domainRoot sampleEnv "www.example.com" (psl jTwo) = Ret "example.com" /\
  (exists k e, entryAt jTwo "example.com" k = Some e /\ expired e (3 * Second) = true) /\
  forall k e,
    entryAt (snd (Cookies sampleEnv jTwo "https" "www.example.com" "/" (3 * Second)))
      "example.com" k = Some e ->
    expired e (3 * Second) = false.
Proof.
  assert (Hk : keys_consistent jTwo)
    by (apply (bool_decide_eq_true_1 (keys_consistent _)); vm_compute; reflexivity).
  assert (H : Cookies sampleEnv jTwo "https" "www.example.com" "/" (3 * Second) =
    (Ret [nameValue "c" "d"; nameValue "a" "b"],
     snd (Cookies sampleEnv jTwo "https" "www.example.com" "/" (3 * Second))))
    by (vm_compute; reflexivity).
  assert (Hh : canonicalHost sampleEnv "www.example.com" = Ret "www.example.com")
    by (vm_compute; reflexivity).
  assert (Hr : domainRoot sampleEnv "www.example.com" (psl jTwo) = Ret "example.com")
    by (vm_compute; reflexivity).
  split; [exact Hk|]. split; [exact H|]. split; [exact Hh|]. split; [exact Hr|]. split.
  - exists "www.example.com;/;a", (mkEntry "example.com" "www.example.com;/;a" 1 (1 + Second)
                                 true "a" "b" "www.example.com" "/" false false).
    split; vm_compute; reflexivity.
  - exact (Cookies_evicts_expired sampleEnv jTwo _ "https" "www.example.com" "/"
             "www.example.com" "example.com" (3 * Second) _ Hk H Hh Hr).
Defined.

Lemma Cookies_returns_accepted_witness :
  keys_consistent jTwo /\
  Cookies sampleEnv jTwo "https" "www.example.com" "/" (3 * Second) =
    (Ret [nameValue "c" "d"; nameValue "a" "b"],
     snd (Cookies sampleEnv jTwo "https" "www.example.com" "/" (3 * Second))) /\
  canonicalHost sampleEnv "www.example.com" = Ret "www.example.com" /\
  domainRoot sampleEnv "www.example.com" (psl jTwo) = Ret "example.com" /\
  forall c, c ∈ [nameValue "c" "d"; nameValue "a" "b"] <->
    exists k e, entryAt jTwo "example.com" k = Some e /\
                shouldSend e "https" "www.example.com" "/" = Ret true /\
                c = mkCookie (eName e) (eValue e) "" "" 0 false false 0 [].
Proof.
  assert (Hk : keys_consistent jTwo)
    by (apply (bool_decide_eq_true_1 (keys_consistent _)); vm_compute; reflexivity).
  assert (H : Cookies sampleEnv jTwo "https" "www.example.com" "/" (3 * Second) =
    (Ret [nameValue "c" "d"; nameValue "a" "b"],
     snd (Cookies sampleEnv jTwo "https" "www.example.com" "/" (3 * Second))))
    by (vm_compute; reflexivity).
  assert (Hh : canonicalHost sampleEnv "www.example.com" = Ret "www.example.com")
    by (vm_compute; reflexivity).
  assert (Hr : domainRoot sampleEnv "www.example.com" (psl jTwo) = Ret "example.com")
    by (vm_compute; reflexivity).
  split; [exact Hk|]. split; [exact H|]. split; [exact Hh|]. split; [exact Hr|].
  exact (Cookies_returns_accepted sampleEnv jTwo _ "https" "www.example.com" "/"
           "www.example.com" "example.com" (3 * Second) _ Hk H Hh Hr).
Defined.

Lemma Cookies_absent_bucket_witness :
  validScheme "http" = true /\
  canonicalHost sampleEnv "other.org" = Ret "other.org" /\
  domainRoot sampleEnv "other.org" (psl jTwo) = Ret "other.org" /\
  ent jTwo !! "other.org" = None /\
  Cookies sampleEnv jTwo "http" "other.org" "/" 5 = (Ret [], jTwo).
Proof.
  assert (Hs : validScheme "http" = true) by reflexivity.
  assert (Hh : canonicalHost sampleEnv "other.org" = Ret "other.org") by (vm_compute; reflexivity).
  assert (Hr : domainRoot sampleEnv "other.org" (psl jTwo) = Ret "other.org")
    by (vm_compute; reflexivity).
  assert (E : ent jTwo !! "other.org" = None) by (vm_compute; reflexivity).
  split; [exact Hs|]. split; [exact Hh|]. split; [exact Hr|]. split; [exact E|].
  exact (Cookies_absent_bucket sampleEnv jTwo "http" "other.org" "/" "other.org" "other.org" 5
           Hs Hh Hr E).
Defined.

(** An entry [newEntry] keeps carries the root [domainRoot] gives the host,
    the key [Domain;Path;Name], the creation time and the domain that
    [validateDomain] accepted, and the cookie's own fields. *)
Theorem newEntry_kept_fields (env : GoEnv) (c : Cookie) (host : string)
    (p : PublicSuffixList) (now : Z) (e : jarEntry) :
  newEntry env c host p now = Ret (e, false) ->
  domainRoot env host p = Ret (Root e) /\
  Key e = eDomain e ++ ";" ++ ePath e ++ ";" ++ eName e /\
  Created e = now /\
  validateDomain env host (Domain c) p = Ret (eDomain e, HostOnly e) /\
  eName e = Name c /\ eValue e = Value c /\ eSecure e = Secure c /\ eHttpOnly e = HttpOnly c.
Proof.
  intros H. apply newEntry_inv in H as (domain & hostOnly & Hv & H); cbn zeta in H.
  destruct H as [[? _]|(_ & root & exp & Hr & -> & _)]; [discriminate|].
  cbn. repeat split; assumption.
Qed.

Lemma newEntry_kept_fields_witness :
  newEntry sampleEnv (ck "a" "b" ".example.com" "x" 5) "www.example.com" comPSL 1 =
    Ret (mkEntry "example.com" "example.com;/;a" 1 (1 + 5 * Second) false "a" "b"
           "example.com" "/" false false, false) /\
  domainRoot sampleEnv "www.example.com" comPSL = Ret "example.com" /\
  "example.com;/;a" = "example.com" ++ ";" ++ "/" ++ ";" ++ "a" /\
  1 = 1 /\
  validateDomain sampleEnv "www.example.com" ".example.com" comPSL = Ret ("example.com", false) /\
  "a" = "a" /\ "b" = "b" /\ false = false /\ false = false.
Proof.
  assert (H : newEntry sampleEnv (ck "a" "b" ".example.com" "x" 5) "www.example.com" comPSL 1 =
    Ret (mkEntry "example.com" "example.com;/;a" 1 (1 + 5 * Second) false "a" "b"
           "example.com" "/" false false, false)) by (vm_compute; reflexivity).
  split; [exact H|].
  exact (newEntry_kept_fields sampleEnv _ _ _ _ _ H).
Defined.

(** Whether [newEntry] asks for removal depends on [MaxAge], [Expires] and
    [now] only: a negative [MaxAge], or a zero [MaxAge] with a non-zero
    [Expires] not after [now]. A kept entry expires [MaxAge] seconds after
    [now] (an [int64] duration) when [MaxAge] is positive, and at
    [Expires] otherwise. *)
Theorem newEntry_disposition (env : GoEnv) (c : Cookie) (host : string)
    (p : PublicSuffixList) (now : Z) (e : jarEntry) (rm : bool) :
  newEntry env c host p now = Ret (e, rm) ->
  rm = (MaxAge c <? 0) || ((MaxAge c =? 0) && negb (Expires c =? 0) && negb (Expires c >? now)) /\
  (rm = false ->
   eExpires e = if MaxAge c >? 0 then now + i64 (MaxAge c * Second) else Expires c).
Proof.
  intros H. apply newEntry_inv in H as (domain & hostOnly & _ & H); cbn zeta in H.
  destruct H as [(-> & _ & Hm)|(-> & root & exp & _ & -> & Hm)].
  - split; [|discriminate].
    destruct Hm as [Hm|(Hm & He & Hn)].
    + rewrite (proj2 (Z.ltb_lt _ _) Hm). reflexivity.
    + rewrite Hm, (proj2 (Z.eqb_neq _ _) He).
      replace (Expires c >? now) with false by (symmetry; rewrite Z.gtb_ltb; apply Z.ltb_ge; lia).
      reflexivity.
  - split; [|intros _; cbn].
    + destruct Hm as [(Hm & _)|[(Hm & He & Hn & _)|(Hm & He & _)]].
      * replace (MaxAge c <? 0) with false by (symmetry; apply Z.ltb_ge; lia).
        replace (MaxAge c =? 0) with false by (symmetry; apply Z.eqb_neq; lia). reflexivity.
      * rewrite Hm. replace (Expires c >? now) with true by (symmetry; apply Z.gtb_lt; lia).
        rewrite andb_false_r. reflexivity.
      * rewrite Hm, He. reflexivity.
    + destruct Hm as [(Hm & ->)|[(Hm & _ & _ & ->)|(Hm & He & ->)]].
      * replace (MaxAge c >? 0) with true by (symmetry; apply Z.gtb_lt; lia). reflexivity.
      * rewrite Hm. reflexivity.
      * rewrite Hm, He. reflexivity.
Qed.

Lemma newEntry_disposition_witness :
  newEntry sampleEnv (mkCookie "a" "b" "" "/" 7 false false 0 []) "example.com" None 3 =
    Ret (mkEntry "" "example.com;/;a" 3 7 true "a" "b" "example.com" "/" false false, false) /\
  false = (0 <? 0) || ((0 =? 0) && negb (7 =? 0) && negb (7 >? 3)) /\
  (false = false -> 7 = if 0 >? 0 then 3 + i64 (0 * Second) else 7).
Proof.
  assert (H : newEntry sampleEnv (mkCookie "a" "b" "" "/" 7 false false 0 []) "example.com" None 3 =
    Ret (mkEntry "" "example.com;/;a" 3 7 true "a" "b" "example.com" "/" false false, false))
    by (vm_compute; reflexivity).
  split; [exact H|].
  exact (newEntry_disposition sampleEnv _ _ _ _ _ _ H).
Defined.

(** [newEntry] keeps a path that starts with ["/"] and replaces any other
    path, the empty one included, by ["/"]. *)
Theorem newEntry_path (env : GoEnv) (c : Cookie) (host : string)
    (p : PublicSuffixList) (now : Z) (e : jarEntry) (rm : bool) :
  newEntry env c host p now = Ret (e, rm) ->
  ePath e = if HasPrefix (Path c) "/" then Path c else "/".
Proof.
  intros H. apply newEntry_inv in H as (domain & hostOnly & _ & H); cbn zeta in H.
  destruct H as [(_ & -> & _)|(_ & root & exp & _ & -> & _)]; reflexivity.
Qed.

Lemma newEntry_path_witness :
  newEntry sampleEnv (ck "a" "b" "" "docs" (-1)) "example.com" None 3 =
    Ret (mkEntry "" "" 3 0 true "a" "b" "example.com" "/" false false, true) /\
  "/" = (if HasPrefix "docs" "/" then "docs" else "/").
Proof.
  assert (H : newEntry sampleEnv (ck "a" "b" "" "docs" (-1)) "example.com" None 3 =
    Ret (mkEntry "" "" 3 0 true "a" "b" "example.com" "/" false false, true))
    by (vm_compute; reflexivity).
  split; [exact H|].
  exact (newEntry_path sampleEnv _ _ _ _ _ _ H).
Defined.

Lemma HasPrefix_refl (s : string) : HasPrefix s s = true.
Proof.
  unfold HasPrefix. rewrite substring_full, String.eqb_refl.
  rewrite (proj2 (Z.leb_le _ _)) by lia. reflexivity.
Qed.

(** What an accepted entry satisfies: a secure entry is only sent over
    https, a host-only entry only to its own host, any other entry to its
    domain or a host ending in ["." + domain], and the request path starts
    with the entry's path. *)
Theorem shouldSend_accepts (e : jarEntry) (scheme host path : string) :
  shouldSend e scheme host path = Ret true ->
  (eSecure e = true -> scheme = "https") /\
  (HostOnly e = true -> eDomain e = host) /\
  (eDomain e = host \/ hasDotSuffix host (eDomain e) = Ret true) /\
  HasPrefix path (ePath e) = true.
Proof.
  unfold shouldSend.
  assert (Hpm : forall pm : outcome bool,
            pm = (if negb (String.eqb path (ePath e)) then
                    if negb (HasPrefix path (ePath e)) then Ret false
                    else last ← at_ (ePath e) (len (ePath e) - 1);
                         if negb (Ascii.eqb last "/") then
                           next ← at_ path (len (ePath e)); Ret (Ascii.eqb next "/")
                         else Ret true
                  else Ret true) ->
            pm = Ret true -> HasPrefix path (ePath e) = true).
  { intros pm ->. destruct (String.eqb_spec path (ePath e)) as [->|_]; cbn [negb].
    - intros _. apply HasPrefix_refl.
    - destruct (HasPrefix path (ePath e)); [reflexivity|]. cbn. discriminate. }
  intros H.
  assert (Hsec : eSecure e = true -> scheme = "https").
  { intros Hs. rewrite Hs in H. destruct (String.eqb_spec scheme "https"); [assumption|].
    discriminate. }
  destruct (eSecure e && negb (String.eqb scheme "https")); [discriminate|].
  destruct (String.eqb_spec (eDomain e) host) as [Hd|Hd]; cbn [negb] in H.
  - split; [exact Hsec|]. split; [auto|]. split; [auto|]. eapply Hpm; [reflexivity|exact H].
  - destruct (HostOnly e); [discriminate|].
    destruct (hasDotSuffix host (eDomain e)) as [[|]| |] eqn:Hds; cbn [mbind outcome_bind] in H;
      try discriminate.
    split; [exact Hsec|]. split; [discriminate|]. split; [auto|].
    eapply Hpm; [reflexivity|exact H].
Qed.

Lemma shouldSend_accepts_witness :
  shouldSend (fooEntry false) "http" "example.com" "/foo/bar" = Ret true /\
  (false = true -> "http" = "https") /\
  (true = true -> "example.com" = "example.com") /\
  ("example.com" = "example.com" \/ hasDotSuffix "example.com" "example.com" = Ret true) /\
  HasPrefix "/foo/bar" "/foo" = true.
Proof.
  assert (H : shouldSend (fooEntry false) "http" "example.com" "/foo/bar" = Ret true)
    by (vm_compute; reflexivity).
  split; [exact H|].
  exact (shouldSend_accepts (fooEntry false) "http" "example.com" "/foo/bar" H).
Defined.

(** ** Byte strings: lengths, indexing and slicing of concatenations *)

Lemma str_length_app (a b : string) :
  String.length (a ++ b) = (String.length a + String.length b)%nat.
Proof. induction a as [|c a IH]; simpl; [reflexivity|]. f_equal. exact IH. Qed.

Lemma len_app (a b : string) : len (a ++ b) = len a + len b.
Proof. unfold len. rewrite str_length_app. lia. Qed.

Lemma get_app_r (a b : string) (n : nat) :
  String.get (String.length a + n) (a ++ b) = String.get n b.
Proof. induction a as [|c a IH]; cbn; auto. Qed.

Lemma get_app_l (a b : string) (n : nat) :
  (n < String.length a)%nat -> String.get n (a ++ b) = String.get n a.
Proof. intros H. symmetry. apply append_correct1. exact H. Qed.

Lemma substring_app_r (a b : string) (k m : nat) :
  String.substring (String.length a + k) m (a ++ b) = String.substring k m b.
Proof. induction a as [|c a IH]; cbn; [reflexivity|]. exact IH. Qed.

Lemma substring_app_l (a b : string) : String.substring 0 (String.length a) (a ++ b) = a.
Proof. induction a as [|c a IH]; simpl; [destruct b; reflexivity|]. f_equal. exact IH. Qed.

Lemma substring_split (s : string) (n : nat) :
  (n <= String.length s)%nat ->
  s = String.substring 0 n s ++ String.substring n (String.length s - n) s.
Proof.
  revert n. induction s as [|c s IH]; intros n Hn; cbn in Hn.
  - assert (n = 0%nat) as -> by lia. reflexivity.
  - destruct n as [|n].
    + simpl. rewrite substring_full. reflexivity.
    + change (String c s = String c (String.substring 0 n s ++
                                     String.substring n (String.length s - n) s)).
      f_equal. apply IH. lia.
Qed.

Lemma substring_get (s : string) (n m : nat) (c : ascii) :
  String.get n s = Some c ->
  String.substring n (S m) s = String c (String.substring (S n) m s).
Proof.
  revert n. induction s as [|c' s IH]; intros n H; [discriminate|].
  destruct n as [|n]; cbn in H |- *.
  - injection H as ->. destruct s; reflexivity.
  - rewrite (IH n H). destruct s; reflexivity.
Qed.

Lemma substring_length (s : string) (n m : nat) :
  (n + m <= String.length s)%nat -> String.length (String.substring n m s) = m.
Proof.
  revert n m. induction s as [|c s IH]; intros n m H; cbn in H.
  - assert (n = 0%nat /\ m = 0%nat) as [-> ->] by lia. reflexivity.
  - destruct n as [|n].
    + destruct m as [|m]; [reflexivity|].
      change (S (String.length (String.substring 0 m s)) = S m). rewrite IH by lia. reflexivity.
    + change (String.length (String.substring n m s) = m). apply IH. lia.
Qed.

Lemma len_nonneg (s : string) : 0 <= len s.
Proof. unfold len. lia. Qed.

(** [hasDotSuffix s suffix] holds exactly when [s] is some string, a dot
    and [suffix]; it never panics. *)
Theorem hasDotSuffix_spec (s suffix : string) :
  hasDotSuffix s suffix <> Panic /\
  (hasDotSuffix s suffix = Ret true <-> exists p, s = p ++ String "." suffix).
Proof.
  split.
  { destruct (hasDotSuffix_total s suffix) as [b ->]. discriminate. }
  unfold hasDotSuffix. split.
  - destruct (Z.gtb_spec (len s) (len suffix)) as [Hl|]; [|discriminate].
    destruct (at_in_range s (len s - len suffix - 1)) as [c [Hc Hg]];
      [pose proof (len_nonneg suffix); lia|].
    rewrite Hc. cbn [mbind outcome_bind].
    destruct (Ascii.eqb_spec c ".") as [->|]; [|discriminate].
    rewrite slice_in_range by (pose proof (len_nonneg suffix); lia).
    cbn [mbind outcome_bind]. intros [= Heq]. apply String.eqb_eq in Heq.
    unfold len in *.
    set (n := (String.length s - String.length suffix - 1)%nat).
    replace (Z.to_nat (Z.of_nat (String.length s) - Z.of_nat (String.length suffix) - 1))
      with n in Hg by (unfold n; lia).
    replace (Z.to_nat (Z.of_nat (String.length s) - Z.of_nat (String.length suffix)))
      with (S n) in Heq by (unfold n; lia).
    replace (Z.to_nat (Z.of_nat (String.length s) -
                       (Z.of_nat (String.length s) - Z.of_nat (String.length suffix))))
      with (String.length suffix) in Heq by lia.
    exists (String.substring 0 n s).
    rewrite (substring_split s n) at 1 by (unfold n; lia).
    replace (String.length s - n)%nat with (S (String.length suffix)) by (unfold n; lia).
    rewrite (substring_get s n _ "." Hg), Heq. reflexivity.
  - intros [p ->].
    rewrite !len_app. unfold len. cbn [String.length].
    destruct (Z.gtb_spec (Z.of_nat (String.length p) + Z.of_nat (S (String.length suffix)))
                         (Z.of_nat (String.length suffix))); [|lia].
    assert (Hg : String.get (String.length p + 0) (p ++ String "." suffix) = Some "."%char)
      by (rewrite get_app_r; reflexivity).
    rewrite (at_get _ _ "."%char); [| lia | rewrite <- Hg; f_equal; lia].
    cbn [mbind outcome_bind]. rewrite Ascii.eqb_refl.
    rewrite slice_in_range by (unfold len; try rewrite str_length_app; cbn [String.length]; lia).
    cbn [mbind outcome_bind].
    replace (Z.to_nat (Z.of_nat (String.length p) + Z.of_nat (S (String.length suffix)) -
                       Z.of_nat (String.length suffix)))
      with (String.length p + 1)%nat by lia.
    replace (Z.to_nat (Z.of_nat (String.length p) + Z.of_nat (S (String.length suffix)) -
                       (Z.of_nat (String.length p) + Z.of_nat (S (String.length suffix)) -
                        Z.of_nat (String.length suffix))))
      with (String.length suffix) by lia.
    rewrite substring_app_r. cbn. rewrite substring_full, String.eqb_refl. reflexivity.
Qed.

Lemma LastIndexByte_range (s : string) (c : ascii) :
  -1 <= LastIndexByte s c < len s.
Proof.
  unfold len. induction s as [|c' s IH]; cbn [LastIndexByte String.length]; [lia|].
  destruct (Z.leb_spec 0 (LastIndexByte s c)); [lia|].
  destruct (Ascii.eqb c' c); lia.
Qed.

Lemma domainRoot_ret (env : GoEnv) (host : string) (p : PublicSuffixList) :
  exists r, domainRoot env host p = Ret r /\ (r = "" \/ exists pre, host = pre ++ r).
Proof.
  unfold domainRoot.
  destruct (isIP env host); [eexists; split; [reflexivity|right; exists ""; reflexivity]|].
  destruct p as [ps|]; [|eexists; split; [reflexivity|left; reflexivity]].
  destruct (String.eqb (ps host) host);
    [eexists; split; [reflexivity|right; exists ""; reflexivity]|].
  pose proof (len_nonneg (ps host)) as Hs.
  destruct (Z.gtb_spec (len host - len (ps host)) 0) as [Hi|];
    [|eexists; split; [reflexivity|left; reflexivity]].
  destruct (at_in_range host (len host - len (ps host) - 1)) as [c [Hc _]]; [lia|].
  rewrite Hc. cbn [mbind outcome_bind].
  destruct (Ascii.eqb c "."); [|eexists; split; [reflexivity|left; reflexivity]].
  rewrite slice_in_range by lia. cbn [mbind outcome_bind].
  set (pre := String.substring _ _ host).
  assert (Hpre : len pre = len host - len (ps host) - 1).
  { unfold pre, len in *. rewrite substring_length by lia. lia. }
  pose proof (LastIndexByte_range pre ".") as Hl.
  rewrite slice_in_range by lia.
  eexists. split; [reflexivity|right].
  exists (String.substring 0 (Z.to_nat (LastIndexByte pre "." + 1)) host).
  unfold len in *.
  replace (Z.to_nat (Z.of_nat (String.length host) - (LastIndexByte pre "." + 1)))
    with (String.length host - Z.to_nat (LastIndexByte pre "." + 1))%nat by lia.
  apply substring_split. lia.
Qed.

(** [domainRoot] never panics, whatever the public suffix list returns
    (the guard against bad implementations), and its result is empty or a
    suffix of the host. *)
Theorem domainRoot_suffix (env : GoEnv) (host : string) (p : PublicSuffixList) :
  exists r, domainRoot env host p = Ret r /\ (r = "" \/ exists pre, host = pre ++ r).
Proof. exact (domainRoot_ret env host p). Qed.

(** [validateDomain] never panics. *)
Theorem validateDomain_never_panics (env : GoEnv) (host domain : string) (p : PublicSuffixList) :
  validateDomain env host domain p <> Panic.
Proof.
  unfold validateDomain.
  destruct (String.eqb_spec domain "") as [|Hne]; [discriminate|].
  destruct (isIP env host); [discriminate|].
  assert (Hlen : 0 < len domain).
  { destruct domain; [contradiction|]. unfold len. cbn. lia. }
  destruct (at_in_range domain 0) as [c0 [Hc0 _]]; [lia|]. rewrite Hc0. cbn [mbind outcome_bind].
  assert (Hdom : exists dom, (if Ascii.eqb c0 "." then slice domain 1 (len domain) else Ret domain)
                             = Ret dom).
  { destruct (Ascii.eqb c0 "."); [|eauto]. rewrite slice_in_range by lia. eauto. }
  destruct Hdom as [dom ->]. cbn [mbind outcome_bind].
  assert (Hm : exists m, (if String.eqb dom "" then Ret true
                          else c ← at_ dom 0;
                               if Ascii.eqb c "." then Ret true
                               else c' ← at_ dom (len dom - 1); Ret (Ascii.eqb c' ".")) = Ret m).
  { destruct (String.eqb_spec dom "") as [|Hd]; [eauto|].
    assert (Hl : 0 < len dom) by (destruct dom; [contradiction|unfold len; cbn; lia]).
    destruct (at_in_range dom 0) as [c [-> _]]; [lia|]. cbn [mbind outcome_bind].
    destruct (Ascii.eqb c "."); [eauto|].
    destruct (at_in_range dom (len dom - 1)) as [c' [-> _]]; [lia|]. cbn. eauto. }
  destruct Hm as [[|] ->]; cbn [mbind outcome_bind]; [discriminate|].
  destruct p as [ps|]; [|discriminate].
  assert (Hpub : exists b, (if String.eqb (ps (ToLower env dom)) "" then Ret false
                            else ds ← hasDotSuffix (ToLower env dom) (ps (ToLower env dom));
                                 Ret (negb ds)) = Ret b).
  { destruct (String.eqb (ps (ToLower env dom)) ""); [eauto|].
    destruct (hasDotSuffix_total (ToLower env dom) (ps (ToLower env dom))) as [b ->]. cbn. eauto. }
  destruct Hpub as [[|] ->]; cbn [mbind outcome_bind].
  - destruct (String.eqb host (ToLower env dom)); discriminate.
  - destruct (String.eqb host (ToLower env dom)); cbn [mbind outcome_bind]; [discriminate|].
    destruct (hasDotSuffix_total host (ToLower env dom)) as [[|] ->]; cbn; discriminate.
Qed.

(** A host-only result of [validateDomain] is the host itself; any other
    result comes from a non-empty [Domain] attribute and, when there is a
    public suffix list, domain-matches the host. *)
Theorem validateDomain_result (env : GoEnv) (host domain d : string) (p : PublicSuffixList)
    (hostOnly : bool) :
  validateDomain env host domain p = Ret (d, hostOnly) ->
  (hostOnly = true -> d = host) /\
  (hostOnly = false ->
     domain <> "" /\ forall ps, p = Some ps -> host = d \/ hasDotSuffix host d = Ret true).
Proof.
  intros H. split.
  - intros ->. revert H. unfold validateDomain.
    destruct (String.eqb domain ""); [congruence|].
    destruct (isIP env host); [discriminate|].
    destruct (at_ domain 0) as [c0| |]; cbn [mbind outcome_bind]; try discriminate.
    destruct (if Ascii.eqb c0 "." then slice domain 1 (len domain) else Ret domain)
      as [dom| |]; cbn [mbind outcome_bind]; try discriminate.
    destruct (if String.eqb dom "" then Ret true else _) as [[|]| |];
      cbn [mbind outcome_bind]; try discriminate.
    destruct p as [ps|]; [|discriminate].
    destruct (if String.eqb (ps (ToLower env dom)) "" then Ret false else _) as [[|]| |];
      cbn [mbind outcome_bind]; try discriminate.
    + destruct (String.eqb_spec host (ToLower env dom)); [congruence|discriminate].
    + destruct (String.eqb host (ToLower env dom)); cbn [mbind outcome_bind]; [congruence|].
      destruct (hasDotSuffix host (ToLower env dom)) as [[|]| |]; cbn; discriminate.
  - intros ->. split.
    + intros ->. revert H. unfold validateDomain. cbn. discriminate.
    + intros ps ->. eapply validateDomain_psl_domain_match. exact H.
Qed.

Lemma validateDomain_result_witness :
  validateDomain sampleEnv "www.example.com" ".Example.com" comPSL = Ret ("example.com", false) /\
  (false = true -> "example.com" = "www.example.com") /\
  (false = false ->
     ".Example.com" <> "" /\ forall ps, comPSL = Some ps ->
       "www.example.com" = "example.com" \/ hasDotSuffix "www.example.com" "example.com" = Ret true).
Proof.
  assert (H : validateDomain sampleEnv "www.example.com" ".Example.com" comPSL =
              Ret ("example.com", false)) by (vm_compute; reflexivity).
  split; [exact H|].
  exact (validateDomain_result sampleEnv _ _ _ _ _ H).
Defined.

Lemma bucket_map_to_list_single (k : string) (e : jarEntry) :
  map_to_list (<[k:=e]> (∅ : Bucket)) = [(k, e)].
Proof. exact (map_to_list_singleton (M:=gmap string) k e). Qed.

(** A session cookie without [Domain] and [Secure], set in a new jar, is
    returned by [Cookies] for the same scheme, host and its own path, at any
    later time. *)
Theorem SetCookie_then_Cookies (env : GoEnv) (p : PublicSuffixList) (scheme host path h : string)
    (c : Cookie) (now later : Z) :
  validScheme scheme = true -> canonicalHost env host = Ret h ->
  Domain c = "" -> Secure c = false -> MaxAge c = 0 -> Expires c = 0 ->
  HasPrefix (Path c) "/" = true ->
  fst (Cookies env (snd (SetCookie env (NewJar p) scheme host path c now)) scheme host (Path c) later)
  = Ret [mkCookie (Name c) (Value c) "" "" 0 false false 0 []].
Proof.
  intros Hs Hh Hd Hsec Hm He Hp.
  destruct (domainRoot_ret env h p) as [r [Hr _]].
  set (E := mkEntry r (h ++ ";" ++ Path c ++ ";" ++ Name c) now 0 true (Name c) (Value c) h
                    (Path c) false (HttpOnly c)).
  assert (HE : newEntry env c h p now = Ret (E, false)).
  { unfold newEntry.
    replace (validateDomain env h (Domain c) p) with (Ret (A:=string * bool) (h, true))
      by (unfold validateDomain; rewrite Hd; reflexivity).
    cbn [mbind outcome_bind]. fold (entryPath (Path c)). rewrite entryPath_spec, Hp.
    cbn [mbind outcome_bind]. rewrite Hm, He. cbn. rewrite Hr. cbn. rewrite Hsec. reflexivity. }
  unfold SetCookie. rewrite Hs, Hh. cbn [negb psl NewJar]. rewrite HE. cbn [snd].
  assert (Hent : ent (set (NewJar p) E) !! r = Some (<[Key E:=E]> (∅ : Bucket))).
  { unfold set, NewJar. cbn [ent]. change (Root E) with r.
    rewrite lookup_insert_eq, lookup_empty. reflexivity. }
  unfold Cookies. rewrite Hs, Hh. cbn [negb]. change (psl (set (NewJar p) E)) with p.
  rewrite Hr, Hent. cbn [default from_option id]. rewrite bucket_map_to_list_single.
  cbn [cookies_loop]. rewrite bucket_insert_eq.
  assert (Hexp : expired E later = false) by reflexivity. rewrite Hexp.
  assert (Hss : shouldSend E scheme h (Path c) = Ret true).
  { unfold shouldSend, E. cbn [eSecure eDomain ePath andb]. rewrite !String.eqb_refl. reflexivity. }
  rewrite Hss. destruct (size _ =? 0)%nat; reflexivity.
Qed.

Lemma SetCookie_then_Cookies_witness :
  validScheme "http" = true /\ canonicalHost sampleEnv "WWW.Example.com" = Ret "www.example.com" /\
  fst (Cookies sampleEnv (snd (SetCookie sampleEnv (NewJar comPSL) "http" "WWW.Example.com" "/"
                                (ck "id" "42" "" "/app" 0) 1)) "http" "WWW.Example.com" "/app" 99)
  = Ret [mkCookie "id" "42" "" "" 0 false false 0 []].
Proof.
  assert (Hh : canonicalHost sampleEnv "WWW.Example.com" = Ret "www.example.com")
    by (vm_compute; reflexivity).
  split; [reflexivity|]. split; [exact Hh|].
  exact (SetCookie_then_Cookies sampleEnv comPSL "http" "WWW.Example.com" "/" "www.example.com"
           (ck "id" "42" "" "/app" 0) 1 99 eq_refl Hh eq_refl eq_refl eq_refl eq_refl eq_refl).
Defined.
Lemma parseAttr_keeps (env : GoEnv) (c c' : Cookie) (raw : string) :
  parseAttr env c raw = Ret c' ->
  Name c' = Name c /\ Value c' = Value c /\ (-1 <= MaxAge c -> -1 <= MaxAge c').
Proof.
  unfold parseAttr.
  match goal with |- (?kv ≫= _) = _ -> _ => destruct kv as [[key val]| |] end;
    cbn [mbind outcome_bind]; try discriminate.
  destruct (at_ key 0) as [k0| |]; cbn [mbind outcome_bind]; try discriminate.
  intros H.
  repeat (match type of H with
          | context [if ?b then _ else _] => destruct b eqn:?
          | context [match ?x with Ret _ => _ | Fail _ => _ | Panic => _ end] => destruct x
          | (?m ≫= _) = _ => destruct m
          end; cbn [mbind outcome_bind] in H; try discriminate);
  simplify_eq/=; rewrite ?Z.ltb_ge in *; repeat split; auto; lia.
Qed.

Lemma parse_attrs_keeps (env : GoEnv) (n : nat) (c c' : Cookie) (raw : string) (s : Z) :
  parse_attrs env n c raw s = Ret c' ->
  Name c' = Name c /\ Value c' = Value c /\ (-1 <= MaxAge c -> -1 <= MaxAge c').
Proof.
  revert c raw s. induction n as [|n IH]; intros c raw s H; cbn [parse_attrs] in H; [discriminate|].
  destruct (_ && _); [|simplify_eq; auto].
  destruct (slice raw (s + 1) (len raw)) as [raw'| |]; cbn [mbind outcome_bind] in H; try discriminate.
  match type of H with (?m ≫= _) = _ => destruct m as [part| |] end;
    cbn [mbind outcome_bind] in H; try discriminate.
  destruct (parseAttr env c part) as [c1| |] eqn:Hc1; cbn [mbind outcome_bind] in H; try discriminate.
  apply parseAttr_keeps in Hc1. apply IH in H. intuition congruence.
Qed.

Lemma parseValue_valid (raw v : string) (ok : bool) :
  parseValue raw = Ret (v, ok) -> ok = true -> isValidValue v = true.
Proof.
  unfold parseValue. intros H ->.
  match type of H with (?m ≫= _) = _ => destruct m as [u| |] end;
    cbn [mbind outcome_bind] in H; try discriminate.
  match type of H with (?m ≫= _) = _ => destruct m as [r| |] end;
    cbn [mbind outcome_bind] in H; try discriminate.
  destruct (isValidValue r) eqn:Hr; simplify_eq; auto.
Qed.

(** A cookie returned by [Parse] has a valid name and a valid value, and
    its [MaxAge] is at least -1. *)
Theorem Parse_result_valid (env : GoEnv) (raw : string) (c : Cookie) :
  Parse env raw = Ret c ->
  isValidName (Name c) = true /\ isValidValue (Value c) = true /\ -1 <= MaxAge c.
Proof.
  unfold Parse. intros H.
  destruct (slice raw 0 _) as [p| |]; cbn [mbind outcome_bind] in H; try discriminate.
  destruct (trim p) as [part| |]; cbn [mbind outcome_bind] in H; try discriminate.
  destruct (_ <? 0); [discriminate|].
  destruct (slice part 0 _) as [name| |]; cbn [mbind outcome_bind] in H; try discriminate.
  destruct (slice part _ (len part)) as [value| |]; cbn [mbind outcome_bind] in H; try discriminate.
  unfold parseName in H. destruct (isValidName name) eqn:Hn; cbn [negb] in H; [|discriminate].
  destruct (parseValue value) as [[v ok]| |] eqn:Hv; cbn [mbind outcome_bind] in H; try discriminate.
  destruct ok; cbn [negb] in H; [|discriminate].
  apply parse_attrs_keeps in H. cbn in H. destruct H as (-> & -> & Hm).
  split; [exact Hn|]. split; [eapply parseValue_valid; eauto|]. lia.
Qed.

Lemma Parse_result_valid_witness :
  Parse sampleEnv "a=b; Max-Age=0" = Ret (mkCookie "a" "b" "" "" 0 false false (-1) []) /\
  isValidName "a" = true /\ isValidValue "b" = true /\ -1 <= -1.
Proof.
  assert (H : Parse sampleEnv "a=b; Max-Age=0" = Ret (mkCookie "a" "b" "" "" 0 false false (-1) []))
    by (vm_compute; reflexivity).
  split; [exact H|]. exact (Parse_result_valid sampleEnv _ _ H).
Defined.

(** *** Serializing and parsing back *)

Lemma list_ascii_of_string_app (a b : string) :
  list_ascii_of_string (a ++ b) = app (list_ascii_of_string a) (list_ascii_of_string b).
Proof. induction a as [|x a IH]; simpl; [reflexivity|]. now rewrite IH. Qed.

Lemma allHave_bytes (bit : Z) (s : string) (x : ascii) :
  allHave bit s = true -> In x (list_ascii_of_string s) -> Z.land (chars x) bit <> 0.
Proof.
  unfold allHave. intros H Hin. apply andb_prop in H as [_ H].
  rewrite forallb_forall in H. specialize (H x Hin).
  destruct (Z.land (chars x) bit =? 0) eqn:E; [discriminate|]. now apply Z.eqb_neq.
Qed.

Lemma allHave_nonempty (bit : Z) (s : string) : allHave bit s = true -> s <> "".
Proof. unfold allHave. intros H ->. discriminate. Qed.

Lemma IndexByte_absent (s : string) (x : ascii) :
  ~ In x (list_ascii_of_string s) -> IndexByte s x = -1.
Proof.
  induction s as [|y s IH]; intros H; simpl in *; [reflexivity|].
  destruct (Ascii.eqb_spec y x); [tauto|]. rewrite IH by tauto. reflexivity.
Qed.

Lemma IndexByte_app (a b : string) (x : ascii) :
  ~ In x (list_ascii_of_string a) -> 0 <= IndexByte b x ->
  IndexByte (a ++ b) x = len a + IndexByte b x.
Proof.
  unfold len. induction a as [|y a IH]; intros H Hb; [reflexivity|]. simpl in *.
  destruct (Ascii.eqb_spec y x); [tauto|]. rewrite IH by tauto.
  rewrite ?Zpos_P_of_succ_nat.
  destruct (Z.ltb_spec (Z.of_nat (String.length a) + IndexByte b x) 0); lia.
Qed.

Lemma at_app_first (a b : string) : a <> "" -> at_ (a ++ b) 0 = at_ a 0.
Proof. destruct a; [congruence|]. reflexivity. Qed.

Lemma at_app_last (a b : string) :
  b <> "" -> at_ (a ++ b) (len (a ++ b) - 1) = at_ b (len b - 1).
Proof.
  intros Hb. rewrite len_app. unfold at_, len.
  destruct b as [|y b]; [congruence|]. cbn [String.length].
  destruct (Z.ltb_spec (Z.of_nat (String.length a) + Z.of_nat (S (String.length b)) - 1) 0); [lia|].
  destruct (Z.ltb_spec (Z.of_nat (S (String.length b)) - 1) 0); [lia|].
  replace (Z.to_nat (Z.of_nat (String.length a) + Z.of_nat (S (String.length b)) - 1))
    with (String.length a + Z.to_nat (Z.of_nat (S (String.length b)) - 1))%nat by lia.
  now rewrite get_app_r.
Qed.

Lemma slice_full (s : string) : slice s 0 (len s) = Ret s.
Proof.
  rewrite slice_in_range by (pose proof (len_nonneg s); lia).
  unfold len. rewrite Z.sub_0_r, Nat2Z.id. cbn [Z.to_nat]. now rewrite substring_full.
Qed.

(** [trim] returns its input when the first and the last byte are neither
    a space nor a tab. *)
Lemma trim_id (s : string) (c0 cl : ascii) :
  at_ s 0 = Ret c0 -> isSpTab c0 = false ->
  at_ s (len s - 1) = Ret cl -> isSpTab cl = false -> trim s = Ret s.
Proof.
  intros H0 Hc0 Hl Hcl.
  assert (Hlen : 1 <= len s).
  { unfold at_ in H0. cbn in H0. unfold len. destruct s; [discriminate|]. cbn. lia. }
  unfold trim. cbn [trimL].
  destruct (Z.leb_spec 0 (len s - 1)); [|lia].
  rewrite H0. cbn [mbind outcome_bind]. rewrite Hc0. cbn [mbind outcome_bind trimR].
  destruct (Z.gtb_spec (len s - 1) 0).
  - rewrite Hl. cbn [mbind outcome_bind]. rewrite Hcl. cbn [mbind outcome_bind].
    replace (len s - 1 + 1) with (len s) by lia. apply slice_full.
  - cbn [mbind outcome_bind]. replace (len s - 1 + 1) with (len s) by lia. apply slice_full.
Qed.

Lemma get_In (s : string) (n : nat) (x : ascii) :
  String.get n s = Some x -> In x (list_ascii_of_string s).
Proof.
  revert n. induction s as [|y s IH]; intros n H; [discriminate|].
  destruct n as [|n]; simpl in *; [left; congruence|right; eauto].
Qed.

Lemma at_In (s : string) (i : Z) (x : ascii) :
  at_ s i = Ret x -> In x (list_ascii_of_string s).
Proof.
  unfold at_. destruct (i <? 0); [discriminate|].
  destruct (String.get _ s) eqn:E; intros H; [|discriminate]. inversion H; subst. eapply get_In; eauto.
Qed.

Lemma len_quoted (v : string) : len (quoted v) = len v + 2.
Proof. unfold quoted, len. cbn [String.length]. rewrite str_length_app. cbn. lia. Qed.

Lemma parseValue_plain (v : string) :
  isValidValue v = true -> parseValue v = Ret (v, true).
Proof.
  intros Hv. unfold parseValue.
  destruct (Z.geb_spec (len v) 2).
  - destruct (at_in_range v 0) as (c0 & H0 & _); [lia|].
    destruct (at_in_range v (len v - 1)) as (cl & Hl & _); [lia|].
    rewrite H0, Hl. cbn [mbind outcome_bind].
    assert (Hc0 : Ascii.eqb c0 dquote = false).
    { apply Ascii.eqb_neq. intros ->. eapply allHave_bytes; [exact Hv|eapply at_In; exact H0|].
      reflexivity. }
    rewrite Hc0. cbn [andb mbind outcome_bind]. now rewrite Hv.
  - cbn [mbind outcome_bind]. now rewrite Hv.
Qed.

Lemma parseValue_quoted (v : string) :
  isValidValue v = true -> parseValue (quoted v) = Ret (v, true).
Proof.
  intros Hv. unfold parseValue. rewrite len_quoted.
  pose proof (len_nonneg v) as Hn.
  destruct (Z.geb_spec (len v + 2) 2); [|lia].
  assert (Hq : quoted v = String dquote v ++ String dquote EmptyString)
    by (unfold quoted; reflexivity).
  assert (H0 : at_ (quoted v) 0 = Ret dquote) by reflexivity.
  assert (Hl : at_ (quoted v) (len v + 2 - 1) = Ret dquote).
  { rewrite <- len_quoted, Hq, at_app_last by discriminate. reflexivity. }
  rewrite H0, Hl. cbn [mbind outcome_bind andb Ascii.eqb].
  rewrite (Ascii.eqb_refl dquote). cbn [andb].
  rewrite slice_in_range by (rewrite ?len_quoted; lia).
  replace (Z.to_nat (len v + 2 - 1 - 1)) with (String.length v) by (unfold len; lia).
  unfold quoted. change (Z.to_nat 1) with 1%nat. cbn [String.substring].
  rewrite substring_app_l. cbn [mbind outcome_bind]. now rewrite Hv.
Qed.

Lemma at_quoted_last (v : string) : at_ (quoted v) (len (quoted v) - 1) = Ret dquote.
Proof.
  change (quoted v) with (String dquote v ++ String dquote EmptyString).
  rewrite at_app_last by discriminate. reflexivity.
Qed.

Lemma marshalled_absent (bit : Z) (s : string) (x : ascii) :
  allHave bit s = true -> Z.land (chars x) bit = 0 -> ~ In x (list_ascii_of_string s).
Proof. intros H Hx Hin. exact (allHave_bytes bit s x H Hin Hx). Qed.

(** A cookie serialized without attributes parses back to its name and
    value: [Parse] undoes [Marshal c false], quoting included. *)
Theorem Marshal_Parse_roundtrip (env : GoEnv) (fmt : Z -> string) (c : Cookie) (s : string) :
  Marshal env fmt c false = Ret s ->
  Parse env s = Ret (mkCookie (Name c) (Value c) "" "" 0 false false 0 []).
Proof.
  unfold Marshal. intros H.
  destruct (isValidName (Name c)) eqn:Hn; cbn [negb] in H; [|discriminate].
  destruct (isValidValue (Value c)) eqn:Hv; cbn [negb] in H; [|discriminate].
  set (n := Name c) in *. set (v := Value c) in *.
  assert (Hn0 : n <> "") by exact (allHave_nonempty _ _ Hn).
  assert (Hv0 : v <> "") by exact (allHave_nonempty _ _ Hv).
  destruct (at_in_range v 0) as (v0 & Hv0at & _).
  { destruct v; [congruence|]. unfold len; cbn; lia. }
  destruct (at_in_range v (len v - 1)) as (vl & Hvlat & _).
  { destruct v; [congruence|]. unfold len; cbn; lia. }
  unfold shouldQuoteValue in H. rewrite Hv0at, Hvlat in H. cbn [mbind outcome_bind negb] in H.
  set (q := _ || _ || _ || _) in H.
  set (w := if q then quoted v else v) in H.
  injection H as <-.
  assert (Hw0 : w <> "") by (unfold w; destruct q; [discriminate|exact Hv0]).
  (* the value part: no [;], parsed back to [v], last byte neither space nor tab *)
  assert (Hwsemi : ~ In ";"%char (list_ascii_of_string w)).
  { unfold w; destruct q.
    - unfold quoted. cbn [list_ascii_of_string]. rewrite list_ascii_of_string_app.
      intros [Hx|Hx]; [discriminate|]. apply in_app_or in Hx as [Hx|[Hx|[]]]; [|discriminate].
      revert Hx. apply (marshalled_absent valueChar); [exact Hv|reflexivity].
    - apply (marshalled_absent valueChar); [exact Hv|reflexivity]. }
  assert (Hwp : parseValue w = Ret (v, true)).
  { unfold w; destruct q; [apply parseValue_quoted|apply parseValue_plain]; exact Hv. }
  assert (Hwl : exists cl, at_ w (len w - 1) = Ret cl /\ isSpTab cl = false).
  { unfold w. destruct q eqn:Eq.
    - exists dquote. split; [apply at_quoted_last|reflexivity].
    - exists vl. split; [exact Hvlat|].
      unfold q in Eq. apply orb_false_elim in Eq as [Eq _]. apply orb_false_elim in Eq as [_ Hsp].
      unfold isSpTab. rewrite Hsp. cbn [orb].
      apply Ascii.eqb_neq. intros ->.
      apply (allHave_bytes valueChar v "009"%char Hv); [eapply at_In; exact Hvlat|reflexivity]. }
  destruct Hwl as (cl & Hcl & Hcl').
  (* the whole line *)
  change ("=" ++ w) with (String "=" w).
  set (s := n ++ String "=" w).
  assert (Hsemi : IndexByte s ";" = -1).
  { apply IndexByte_absent. unfold s. rewrite list_ascii_of_string_app. cbn [list_ascii_of_string].
    intros Hx. apply in_app_or in Hx as [Hx|[Hx|Hx]]; [|discriminate|tauto].
    revert Hx. apply (marshalled_absent nameChar); [exact Hn|reflexivity]. }
  assert (Hlen : len s = len n + 1 + len w).
  { unfold s. rewrite len_app. unfold len. cbn [String.length]. lia. }
  assert (Htrim : trim s = Ret s).
  { destruct (at_in_range n 0) as (n0 & Hn0at & _).
    { destruct n; [congruence|]. unfold len; cbn; lia. }
    apply (trim_id s n0 cl).
    - unfold s. rewrite at_app_first by exact Hn0. exact Hn0at.
    - unfold isSpTab. apply orb_false_intro; apply Ascii.eqb_neq; intros Hx; rewrite Hx in Hn0at;
        (eapply (allHave_bytes nameChar n); [exact Hn|eapply at_In; exact Hn0at|reflexivity]).
    - unfold s. rewrite at_app_last by discriminate.
      change (String "=" w) with ("=" ++ w). rewrite at_app_last by exact Hw0. exact Hcl.
    - exact Hcl'. }
  assert (Heq : IndexByte s "=" = len n).
  { unfold s. rewrite IndexByte_app.
    - cbn [IndexByte]. rewrite Ascii.eqb_refl. lia.
    - apply (marshalled_absent nameChar); [exact Hn|reflexivity].
    - cbn [IndexByte]. rewrite Ascii.eqb_refl. lia. }
  pose proof (len_nonneg n). pose proof (len_nonneg w).
  assert (Hname : slice s 0 (len n) = Ret n).
  { rewrite slice_in_range by lia. rewrite Z.sub_0_r. unfold len. rewrite Nat2Z.id.
    unfold s. now rewrite substring_app_l. }
  assert (Hval : slice s (len n + 1) (len s) = Ret w).
  { rewrite slice_in_range by lia.
    replace (Z.to_nat (len n + 1)) with (String.length n + 1)%nat by (unfold len; lia).
    replace (Z.to_nat (len s - (len n + 1))) with (String.length w) by (unfold len in *; lia).
    unfold s. rewrite substring_app_r. cbn [String.substring]. now rewrite substring_full. }
  unfold Parse. rewrite Hsemi. cbn [Z.ltb Z.compare].
  change (if -1 <? 0 then len s else -1) with (len s).
  rewrite slice_full. cbn [mbind outcome_bind]. rewrite Htrim. cbn [mbind outcome_bind].
  rewrite Heq. destruct (Z.ltb_spec (len n) 0); [lia|].
  rewrite Hname. cbn [mbind outcome_bind]. rewrite Hval. cbn [mbind outcome_bind].
  unfold parseName. rewrite Hn. cbn [negb]. rewrite Hwp. cbn [mbind outcome_bind negb].
  cbn [parse_attrs]. rewrite Z.ltb_irrefl, andb_false_r. reflexivity.
Qed.

Lemma Marshal_Parse_roundtrip_witness :
  Marshal sampleEnv (fun _ => EmptyString) (ck "id" " a b" "" "" 0) false = Ret ("id=" ++ quoted " a b") /\
  Parse sampleEnv ("id=" ++ quoted " a b") = Ret (mkCookie "id" " a b" "" "" 0 false false 0 []).
Proof.
  assert (H : Marshal sampleEnv (fun _ => EmptyString) (ck "id" " a b" "" "" 0) false
              = Ret ("id=" ++ quoted " a b")) by (vm_compute; reflexivity).
  split; [exact H|]. exact (Marshal_Parse_roundtrip sampleEnv _ _ _ H).
Defined.

Lemma marshalUnparsed_no_panic (l : list string) : marshalUnparsed l <> Panic.
Proof.
  induction l as [|a l IH]; cbn [marshalUnparsed]; [discriminate|].
  destruct (isValidAttr a); cbn [negb]; [|discriminate].
  destruct (marshalUnparsed l); cbn [mbind outcome_bind]; congruence.
Qed.

(** [Marshal] never panics: it returns the serialized cookie or an error. *)
Theorem Marshal_never_panics (env : GoEnv) (fmt : Z -> string) (c : Cookie) (attrs : bool) :
  Marshal env fmt c attrs <> Panic.
Proof.
  unfold Marshal.
  destruct (isValidName (Name c)) eqn:Hn; cbn [negb]; [|discriminate].
  destruct (isValidValue (Value c)) eqn:Hv; cbn [negb]; [|discriminate].
  destruct (at_in_range (Value c) 0) as (v0 & H0 & _).
  { pose proof (allHave_nonempty _ _ Hv). destruct (Value c); [congruence|]. unfold len; cbn; lia. }
  destruct (at_in_range (Value c) (len (Value c) - 1)) as (vl & Hl & _).
  { pose proof (allHave_nonempty _ _ Hv). destruct (Value c); [congruence|]. unfold len; cbn; lia. }
  unfold shouldQuoteValue. rewrite H0, Hl. cbn [mbind outcome_bind].
  destruct attrs; cbn [negb]; [|discriminate].
  destruct (String.eqb (Domain c) "");
    [|destruct (isValidDomain env (Domain c))]; cbn [negb mbind outcome_bind]; try discriminate;
  (destruct (String.eqb (Path c) "");
    [|destruct (isValidAttr (Path c))]; cbn [negb mbind outcome_bind]; try discriminate);
  (destruct (marshalUnparsed (Unparsed c)) eqn:Hu; cbn [mbind outcome_bind]; try discriminate;
   now destruct (marshalUnparsed_no_panic _ Hu)).
Qed.

(** With attributes, [Marshal] succeeds only where it succeeds without
    them, and extends that output. *)
Theorem Marshal_attrs_prefix (env : GoEnv) (fmt : Z -> string) (c : Cookie) (s : string) :
  Marshal env fmt c true = Ret s ->
  exists nv rest, Marshal env fmt c false = Ret nv /\ s = nv ++ rest.
Proof.
  unfold Marshal.
  destruct (isValidName (Name c)); cbn [negb]; [|discriminate].
  destruct (isValidValue (Value c)); cbn [negb]; [|discriminate].
  destruct (shouldQuoteValue (Value c)) as [q| |]; cbn [mbind outcome_bind]; try discriminate.
  cbn [negb].
  destruct (String.eqb (Domain c) "");
    [|destruct (isValidDomain env (Domain c))]; cbn [negb mbind outcome_bind]; try discriminate;
  (destruct (String.eqb (Path c) "");
    [|destruct (isValidAttr (Path c))]; cbn [negb mbind outcome_bind]; try discriminate);
  (destruct (marshalUnparsed (Unparsed c)); cbn [mbind outcome_bind]; try discriminate;
   intros H; injection H as <-; eexists _, _; split; reflexivity).
Qed.

Lemma Marshal_attrs_prefix_witness :
  Marshal sampleEnv (fun _ => EmptyString) (ck "a" "b" "" "/x" 5) true
    = Ret "a=b; Path=/x; Max-Age=5" /\
  exists nv rest, Marshal sampleEnv (fun _ => EmptyString) (ck "a" "b" "" "/x" 5) false = Ret nv /\
    "a=b; Path=/x; Max-Age=5" = nv ++ rest.
Proof.
  assert (H : Marshal sampleEnv (fun _ => EmptyString) (ck "a" "b" "" "/x" 5) true
              = Ret "a=b; Path=/x; Max-Age=5") by (vm_compute; reflexivity).
  split; [exact H|]. exact (Marshal_attrs_prefix sampleEnv _ _ _ H).
Defined.

(** *** [hasPort] *)

Lemma string_app_assoc (a b c : string) : (a ++ b) ++ c = a ++ (b ++ c).
Proof. induction a as [|x a IH]; [reflexivity|exact (f_equal (String x) IH)]. Qed.

Lemma hasPort_loop_count (addr pre rest : string) (colons : Z) (rb : bool) :
  addr = pre ++ rest -> pre <> "" ->
  exists rb', hasPort_loop addr (len pre) rest colons rb
              = Ret (colons + Z.of_nat (colonCount rest), rb').
Proof.
  revert pre colons rb. induction rest as [|x rest IH]; intros pre colons rb Ha Hp.
  - exists rb. cbn. f_equal. f_equal. lia.
  - cbn [hasPort_loop].
    assert (Hpre : exists y, at_ addr (len pre - 1) = Ret y).
    { destruct (at_in_range addr (len pre - 1)) as (y & Hy & _); [|eauto].
      subst addr. rewrite len_app. destruct pre; [congruence|].
      pose proof (len_nonneg (String x rest)). unfold len in *; cbn [String.length] in *; lia. }
    assert (Hnext : addr = (pre ++ String x EmptyString) ++ rest).
    { rewrite string_app_assoc. exact Ha. }
    assert (Hl : len (pre ++ String x EmptyString) = len pre + 1).
    { rewrite len_app. reflexivity. }
    assert (Hne : pre ++ String x EmptyString <> "") by (destruct pre; [congruence|discriminate]).
    unfold colonCount. cbn [list_ascii_of_string List.count_occ].
    destruct (Ascii.eqb_spec x ":").
    + subst x. destruct Hpre as [y Hy]. rewrite Hy. cbn [mbind outcome_bind].
      destruct (IH _ (colons + 1) (Ascii.eqb y "]") Hnext Hne) as [rb' H].
      rewrite Hl in H. exists rb'. rewrite H.
      destruct (Ascii.ascii_dec ":" ":"); [|congruence]. unfold colonCount. f_equal. f_equal. lia.
    + destruct (IH _ colons rb Hnext Hne) as [rb' H].
      rewrite Hl in H. exists rb'. rewrite H.
      destruct (Ascii.ascii_dec x ":"); [congruence|]. reflexivity.
Qed.

(** [hasPort] panics exactly when the address starts with a colon; an
    address with no colon has no port, one with exactly one colon has a
    port. *)
Theorem hasPort_colons (addr : string) :
  (hasPort addr = Panic <-> at_ addr 0 = Ret ":"%char) /\
  (at_ addr 0 <> Ret ":"%char ->
   (colonCount addr = 0%nat -> hasPort addr = Ret false) /\
   (colonCount addr = 1%nat -> hasPort addr = Ret true)).
Proof.
  unfold hasPort. destruct addr as [|x rest].
  - cbn. split; [split; discriminate|]. intros _. split; intros H; [reflexivity|discriminate].
  - assert (Hlen : (len (String x rest) =? 0) = false).
    { apply Z.eqb_neq. pose proof (len_nonneg rest). unfold len in *; cbn [String.length]; lia. }
    rewrite Hlen. cbn [hasPort_loop].
    assert (H0 : at_ (String x rest) 0 = Ret x) by reflexivity.
    rewrite H0.
    destruct (Ascii.eqb_spec x ":").
    + subst x. change (at_ (String ":" rest) (0 - 1)) with (@Panic ascii).
      cbn [mbind outcome_bind]. split; [tauto|]. intros []; reflexivity.
    + destruct (hasPort_loop_count (String x rest) (String x EmptyString) rest 0 false eq_refl)
        as [rb' H]; [discriminate|].
      change (0 + 1) with (len (String x EmptyString)). rewrite H. cbn [mbind outcome_bind].
      assert (Hc : colonCount (String x rest) = colonCount rest).
      { unfold colonCount. cbn [list_ascii_of_string List.count_occ].
        destruct (Ascii.ascii_dec x ":"); [congruence|reflexivity]. }
      rewrite Hc. split.
      * split; [|intros Hx; injection Hx; congruence].
        destruct (0 + Z.of_nat (colonCount rest) =? 0); [discriminate|].
        destruct (0 + Z.of_nat (colonCount rest) =? 1); discriminate.
      * intros _. split; intros ->; reflexivity.
Qed.

Lemma hasPort_colons_witness :
  at_ "example.com:8080" 0 <> Ret ":"%char /\ hasPort "example.com:8080" = Ret true.
Proof.
  assert (H : at_ "example.com:8080" 0 <> Ret ":"%char) by discriminate.
  split; [exact H|]. exact (proj2 (proj2 (hasPort_colons "example.com:8080") H) eq_refl).
Defined.

(** *** The punycode encoder on a label of basic code points *)

Lemma string_app_nil_r (a : string) : a ++ "" = a.
Proof. induction a as [|x a IH]; [reflexivity|exact (f_equal (String x) IH)]. Qed.

Lemma chr_byte_of (c : ascii) : chr (byte_of c) = c.
Proof.
  unfold chr, byte_of. pose proof (N_ascii_bounded c) as Hb.
  rewrite Z.mod_small by lia. rewrite N2Z.id. apply ascii_N_embedding.
Qed.

Lemma runes_ascii (l : list Z) : forallb (fun b => b <? 128) l = true -> runes l = l.
Proof.
  induction l as [|b l IH]; cbn [forallb runes]; [reflexivity|].
  intros H. apply andb_prop in H as [Hb Hl]. rewrite Hb. f_equal. exact (IH Hl).
Qed.

Lemma encode_basic_fold (s buf : string) (b rem : Z) :
  forallb (fun b => b <? 128) (bytes s) = true ->
  0 <= b -> b + len s < 2^31 ->
  fold_left (fun '(b, rem, buf) r =>
               if r <? 128 then (add32 b 1, rem, push buf (chr r))
               else (b, rem + 1, buf)) (bytes s) (b, rem, buf)
  = (b + len s, rem, buf ++ s).
Proof.
  revert b buf. induction s as [|c s IH]; intros b buf Ha H0 Hlen.
  - cbn. unfold len. cbn. rewrite Z.add_0_r, string_app_nil_r. reflexivity.
  - change (bytes (String c s)) with (byte_of c :: bytes s) in *. cbn [fold_left forallb] in *.
    apply andb_prop in Ha as [Hc Ha]. rewrite Hc.
    assert (Hl : len (String c s) = len s + 1) by (unfold len; cbn [String.length]; lia).
    pose proof (len_nonneg s).
    assert (Hadd : add32 b 1 = b + 1).
    { unfold add32, i32. rewrite Z.mod_small by lia. lia. }
    rewrite Hadd, chr_byte_of.
    rewrite (IH (b + 1) (push buf c) Ha) by lia.
    rewrite Hl. f_equal; [f_equal; lia|].
    unfold push. rewrite string_app_assoc. reflexivity.
Qed.

(** [encode] on a label of ASCII bytes (shorter than [2^31] bytes) copies
    it after ["xn--"] and closes it with the delimiter ["-"] when it is
    not empty. *)
Theorem encode_basic (s buf : string) :
  isASCII s = true -> len s < 2^31 ->
  encode s buf = Ret (buf ++ "xn--" ++ s ++ (if len s >? 0 then "-" else "")).
Proof.
  intros Ha Hlen. unfold encode, isASCII in *.
  rewrite (runes_ascii _ Ha).
  rewrite (encode_basic_fold s (buf ++ "xn--") 0 0 Ha) by lia.
  rewrite Z.add_0_l.
  cbn [encode_loop]. change (0 >? 0) with false. cbn iota.
  f_equal. destruct (len s >? 0); unfold push; rewrite !string_app_assoc; [reflexivity|].
  now rewrite string_app_nil_r.
Qed.

Lemma encode_basic_witness :
  isASCII "abc" = true /\ len "abc" < 2^31 /\ encode "abc" "" = Ret ("" ++ "xn--" ++ "abc" ++ "-").
Proof.
  assert (Ha : isASCII "abc" = true) by reflexivity.
  assert (Hl : len "abc" < 2^31) by (unfold len; cbn; lia).
  split; [exact Ha|]. split; [exact Hl|]. exact (encode_basic "abc" "" Ha Hl).
Defined.

(** *** [isDomainName] *)

Lemma last_cons_default (l : list ascii) (c d : ascii) :
  List.last (c :: l) d = List.last l c.
Proof.
  revert c d. induction l as [|a l IH]; intros c d; [reflexivity|].
  change (List.last (a :: l) d = List.last (a :: l) c). now rewrite (IH a d), (IH a c).
Qed.

Lemma isDomainName_loop_true (s : string) (prev : ascii) (ok : bool) (n : Z) :
  isDomainName_loop s prev ok n = true ->
  (forall x, In x (list_ascii_of_string s) ->
     (97 <= byte_of x <= 122) \/ (65 <= byte_of x <= 90) \/ (48 <= byte_of x <= 57) \/
     x = "-"%char \/ x = "."%char) /\
  List.last (list_ascii_of_string s) prev <> "-"%char /\
  (ok = true \/ exists x, In x (list_ascii_of_string s) /\
     ((97 <= byte_of x <= 122) \/ (65 <= byte_of x <= 90))).
Proof.
  revert prev ok n. induction s as [|c s IH]; intros prev ok n H; cbn [isDomainName_loop] in H.
  - apply andb_prop in H as [H1 H2]. apply negb_true_iff, orb_false_elim in H1 as [H1 _].
    split; [intros x []|]. split; [cbn; now apply Ascii.eqb_neq|auto].
  - cbn [list_ascii_of_string].
    assert (Hlast : forall d, List.last (c :: list_ascii_of_string s) d
                              = List.last (list_ascii_of_string s) c).
    { intros d. apply last_cons_default. }
    rewrite Hlast.
    destruct ((97 <=? byte_of c) && (byte_of c <=? 122) || (65 <=? byte_of c) && (byte_of c <=? 90))
      eqn:Hl.
    + destruct (IH _ _ _ H) as (Ha & Hb & _). split; [|split; [exact Hb|]].
      * intros x [<-|Hx]; [|auto].
        apply orb_true_iff in Hl as [Hl|Hl]; apply andb_prop in Hl as [Hl1 Hl2];
          apply Z.leb_le in Hl1; apply Z.leb_le in Hl2; lia.
      * right. exists c. split; [left; reflexivity|].
        apply orb_true_iff in Hl as [Hl|Hl]; apply andb_prop in Hl as [Hl1 Hl2];
          apply Z.leb_le in Hl1; apply Z.leb_le in Hl2; lia.
    + assert (Hrest : forall prev' ok' n', isDomainName_loop s prev' ok' n' = true -> ok' = ok ->
        (forall x, In x (c :: list_ascii_of_string s) ->
           (97 <= byte_of x <= 122) \/ (65 <= byte_of x <= 90) \/ (48 <= byte_of x <= 57) \/
           x = "-"%char \/ x = "."%char) ->
        ((forall x, In x (c :: list_ascii_of_string s) ->
           (97 <= byte_of x <= 122) \/ (65 <= byte_of x <= 90) \/ (48 <= byte_of x <= 57) \/
           x = "-"%char \/ x = "."%char) /\
         List.last (list_ascii_of_string s) prev' <> "-"%char /\
         (ok = true \/ exists x, In x (c :: list_ascii_of_string s) /\
            ((97 <= byte_of x <= 122) \/ (65 <= byte_of x <= 90))))).
      { intros prev' ok' n' H' -> Hc. destruct (IH _ _ _ H') as (Ha & Hb & Hd).
        split; [exact Hc|]. split; [exact Hb|].
        destruct Hd as [Hd|(x & Hx & Hx')]; [left; exact Hd|right; exists x; split; [right|]; auto]. }
      destruct ((48 <=? byte_of c) && (byte_of c <=? 57)) eqn:Hd.
      * apply (Hrest _ _ _ H eq_refl). intros x [<-|Hx]; [|exact (proj1 (IH _ _ _ H) x Hx)].
        apply andb_prop in Hd as [Hd1 Hd2]. apply Z.leb_le in Hd1. apply Z.leb_le in Hd2. lia.
      * destruct (Ascii.eqb_spec c "-").
        { destruct (Ascii.eqb prev "."); [discriminate|].
          apply (Hrest _ _ _ H eq_refl). intros x [<-|Hx]; [subst; auto|exact (proj1 (IH _ _ _ H) x Hx)]. }
        destruct (Ascii.eqb_spec c "."); [|discriminate].
        destruct (Ascii.eqb prev "." || Ascii.eqb prev "-"); [discriminate|].
        destruct ((n >? 63) || (n =? 0)); [discriminate|].
        apply (Hrest _ _ _ H eq_refl). intros x [<-|Hx]; [subst; auto|exact (proj1 (IH _ _ _ H) x Hx)].
Qed.

Lemma last_app_nonempty (l1 l2 : list ascii) (d : ascii) :
  l2 <> [] -> List.last (app l1 l2) d = List.last l2 d.
Proof.
  intros H2. induction l1 as [|a l1 IH]; [reflexivity|].
  cbn [app]. rewrite last_cons_default.
  destruct l2 as [|b l2]; [congruence|].
  destruct l1 as [|a' l1]; cbn [app] in *.
  - rewrite last_cons_default. symmetry. apply last_cons_default.
  - rewrite last_cons_default. rewrite last_cons_default in IH. exact IH.
Qed.

Lemma strip_leading_dot (s : string) :
  exists pre, s = pre ++ (match s with String "." s' => s' | _ => s end) /\
              (pre = "" \/ pre = ".").
Proof.
  destruct s as [|c s']; [exists ""; split; [reflexivity|left; reflexivity]|].
  destruct c as [[] [] [] [] [] [] [] []];
    first [exists ""; split; [reflexivity|left; reflexivity]
          |exists "."; split; [reflexivity|right; reflexivity]].
Qed.

(** A name accepted by [isDomainName] has 1 to 255 bytes, only letters,
    digits, hyphens and dots, at least one letter, and does not end in a
    hyphen. *)
Theorem isDomainName_true (s : string) :
  isDomainName s = true ->
  1 <= len s <= 255 /\
  (forall x, In x (list_ascii_of_string s) ->
     (97 <= byte_of x <= 122) \/ (65 <= byte_of x <= 90) \/ (48 <= byte_of x <= 57) \/
     x = "-"%char \/ x = "."%char) /\
  (exists x, In x (list_ascii_of_string s) /\ ((97 <= byte_of x <= 122) \/ (65 <= byte_of x <= 90))) /\
  List.last (list_ascii_of_string s) "."%char <> "-"%char.
Proof.
  unfold isDomainName. intros H.
  destruct ((len s =? 0) || (len s >? 255)) eqn:Hl; [discriminate|].
  apply orb_false_elim in Hl as [Hl1 Hl2]. apply Z.eqb_neq in Hl1. rewrite Z.gtb_ltb in Hl2. apply Z.ltb_ge in Hl2.
  pose proof (len_nonneg s).
  destruct (strip_leading_dot s) as (pre & Hs & Hpre).
  set (t := match s with String "." s' => s' | _ => s end) in *.
  destruct (isDomainName_loop_true t "." false 0 H) as (Ha & Hb & [Hc|(y & Hy & Hy')]);
    [discriminate|].
  assert (Hlist : list_ascii_of_string s = app (list_ascii_of_string pre) (list_ascii_of_string t)).
  { rewrite Hs at 1. apply list_ascii_of_string_app. }
  assert (Hne : list_ascii_of_string t <> []) by (intros E; rewrite E in Hy; destruct Hy).
  split; [lia|]. split; [|split].
  - intros x Hx. rewrite Hlist in Hx. apply in_app_or in Hx as [Hx|Hx]; [|auto].
    destruct Hpre as [->| ->]; cbn in Hx; [destruct Hx|destruct Hx as [<-|[]]; auto].
  - exists y. split; [rewrite Hlist; apply in_or_app; right; exact Hy|exact Hy'].
  - rewrite Hlist, last_app_nonempty by exact Hne. exact Hb.
Qed.

Lemma isDomainName_true_witness :
  isDomainName ".www.example-1.com" = true /\ 1 <= len ".www.example-1.com" <= 255.
Proof.
  assert (H : isDomainName ".www.example-1.com" = true) by reflexivity.
  split; [exact H|]. exact (proj1 (isDomainName_true _ H)).
Defined.

(** *** [trim] *)

Lemma trimL_spec (fuel : nat) (s : string) (l : Z) :
  0 <= l <= len s -> len s - l < Z.of_nat fuel ->
  exists l', trimL fuel s l (len s - 1) = Ret l' /\ l <= l' <= len s /\
    (forall i, l <= i < l' -> exists x, String.get (Z.to_nat i) s = Some x /\ isSpTab x = true) /\
    (l' < len s -> exists x, String.get (Z.to_nat l') s = Some x /\ isSpTab x = false).
Proof.
  revert l. induction fuel as [|f IH]; intros l Hl Hf; [lia|].
  cbn [trimL]. destruct (Z.leb_spec l (len s - 1)).
  - destruct (at_in_range s l) as (x & Hx & Hg); [lia|]. rewrite Hx. cbn [mbind outcome_bind].
    destruct (isSpTab x) eqn:Hsp.
    + destruct (IH (l + 1)) as (l' & H1 & H2 & H3 & H4); [lia|lia|].
      exists l'. split; [exact H1|]. split; [lia|]. split; [|exact H4].
      intros i Hi. destruct (Z.eq_dec i l) as [->|Hne]; [eauto|]. apply H3. lia.
    + exists l. split; [reflexivity|]. split; [lia|]. split; [intros; lia|]. eauto.
  - exists l. split; [reflexivity|]. split; [lia|]. split; [intros; lia|]. intros; lia.
Qed.

Lemma trimR_spec (fuel : nat) (s : string) (l r : Z) :
  0 <= l -> r < len s -> r - l < Z.of_nat fuel ->
  exists r', trimR fuel s l r = Ret r' /\ r' <= r /\ (l <= r -> l <= r') /\ (r <= l -> r' = r) /\
    (forall i, r' < i <= r -> exists x, String.get (Z.to_nat i) s = Some x /\ isSpTab x = true) /\
    (l < r' -> exists x, String.get (Z.to_nat r') s = Some x /\ isSpTab x = false).
Proof.
  revert r. induction fuel as [|f IH]; intros r Hl Hr Hf; cbn [trimR].
  - exists r. split; [reflexivity|]. split; [lia|]. split; [lia|]. split; [lia|]. split; [intros; lia|]. intros; lia.
  - destruct (Z.gtb_spec r l).
    + destruct (at_in_range s r) as (x & Hx & Hg); [lia|]. rewrite Hx. cbn [mbind outcome_bind].
      destruct (isSpTab x) eqn:Hsp.
      * destruct (IH (r - 1)) as (r' & H1 & H2 & H3 & H0 & H4 & H5); [lia|lia|lia|].
        exists r'. split; [exact H1|]. split; [lia|]. split; [lia|]. split; [lia|]. split; [|exact H5].
        intros i Hi. destruct (Z.eq_dec i r) as [->|Hne]; [eauto|]. apply H4. lia.
      * exists r. split; [reflexivity|]. split; [lia|]. split; [lia|]. split; [lia|]. split; [intros; lia|]. eauto.
    + exists r. split; [reflexivity|]. split; [lia|]. split; [lia|]. split; [lia|]. split; [intros; lia|]. intros; lia.
Qed.

Lemma get_substring (s : string) (n m i : nat) :
  (i < m)%nat -> (n + m <= String.length s)%nat ->
  String.get i (String.substring n m s) = String.get (n + i) s.
Proof.
  revert n m i. induction s as [|c s IH]; intros n m i Hi Hl; cbn in Hl; [lia|].
  destruct n as [|n].
  - destruct m as [|m]; [lia|]. destruct i as [|i]; [reflexivity|].
    cbn. rewrite (IH 0%nat m i) by lia. reflexivity.
  - cbn. apply IH; lia.
Qed.

Lemma substring_substring (s : string) (n m a b : nat) :
  (a + b <= m)%nat -> (n + m <= String.length s)%nat ->
  String.substring a b (String.substring n m s) = String.substring (n + a) b s.
Proof.
  revert n m a b. induction s as [|c s IH]; intros n m a b Hab Hl; cbn in Hl.
  - assert (n = 0%nat /\ m = 0%nat) as [-> ->] by lia.
    assert (a = 0%nat /\ b = 0%nat) as [-> ->] by lia. reflexivity.
  - destruct n as [|n].
    + destruct m as [|m]; [assert (a = 0%nat /\ b = 0%nat) as [-> ->] by lia; reflexivity|].
      destruct a as [|a].
      * destruct b as [|b]; [reflexivity|].
        cbn. f_equal. rewrite (IH 0%nat m 0%nat b) by lia. reflexivity.
      * cbn. rewrite (IH 0%nat m a b) by lia. reflexivity.
    + cbn. apply IH; lia.
Qed.

Lemma In_get (s : string) (x : ascii) :
  In x (list_ascii_of_string s) -> exists i, String.get i s = Some x /\ (i < String.length s)%nat.
Proof.
  induction s as [|c s IH]; intros H; [destruct H|].
  destruct H as [<-|H]; [exists 0%nat; split; [reflexivity|cbn; lia]|].
  destruct (IH H) as (i & Hi & Hl). exists (S i). split; [exact Hi|cbn; lia].
Qed.

Lemma forallb_substring (s : string) (n m : nat) (P : ascii -> bool) :
  (n + m <= String.length s)%nat ->
  (forall i, (n <= i < n + m)%nat -> exists x, String.get i s = Some x /\ P x = true) ->
  forallb P (list_ascii_of_string (String.substring n m s)) = true.
Proof.
  intros Hl H. apply forallb_forall. intros x Hx.
  destruct (In_get _ _ Hx) as (i & Hi & Hil).
  rewrite substring_length in Hil by exact Hl.
  rewrite get_substring in Hi by lia.
  destruct (H (n + i)%nat) as (y & Hy & Hy'); [lia|]. congruence.
Qed.

(** [trim] never panics: it drops the spaces and tabs at both ends,
    and what it returns neither starts nor ends with one. *)
Theorem trim_spec (s : string) :
  exists t, trim s = Ret t /\
  exists pre post, s = pre ++ t ++ post /\
    forallb isSpTab (list_ascii_of_string pre) = true /\
    forallb isSpTab (list_ascii_of_string post) = true /\
    (forall x, at_ t 0 = Ret x -> isSpTab x = false) /\
    (forall x, at_ t (len t - 1) = Ret x -> isSpTab x = false).
Proof.
  pose proof (len_nonneg s) as Hs.
  destruct (trimL_spec (S (String.length s)) s 0) as (l & HL1 & HL2 & HL3 & HL4);
    [lia|unfold len; lia|].
  destruct (trimR_spec (S (String.length s)) s l (len s - 1)) as (r & HR1 & HR2 & HR3 & HR0 & HR4 & HR5);
    [lia|lia|unfold len in *; lia|].
  assert (Hr : l <= r + 1 <= len s).
  { destruct (Z.le_gt_cases l (len s - 1)); [specialize (HR3 H); lia|].
    assert (l = len s) by lia. specialize (HR0 ltac:(lia)). lia. }
  unfold trim. rewrite HL1. cbn [mbind outcome_bind]. rewrite HR1. cbn [mbind outcome_bind].
  rewrite slice_in_range by lia.
  set (t := String.substring (Z.to_nat l) (Z.to_nat (r + 1 - l)) s).
  exists t. split; [reflexivity|].
  assert (Htlen : String.length t = Z.to_nat (r + 1 - l)).
  { apply substring_length. unfold len in *. lia. }
  exists (String.substring 0 (Z.to_nat l) s), (String.substring (Z.to_nat (r + 1)) (Z.to_nat (len s - (r + 1))) s).
  split; [|split; [|split; [|split]]].
  - rewrite (substring_split s (Z.to_nat l)) at 1 by (unfold len in *; lia). f_equal.
    set (u := String.substring (Z.to_nat l) (String.length s - Z.to_nat l) s).
    assert (Hu : String.length u = (String.length s - Z.to_nat l)%nat).
    { apply substring_length. unfold len in *. lia. }
    rewrite (substring_split u (Z.to_nat (r + 1 - l))) at 1 by (unfold len in *; lia).
    unfold t, u. f_equal.
    + rewrite substring_substring by (unfold len in *; lia). f_equal. lia.
    + rewrite (substring_length s) by (unfold len in *; lia).
      rewrite substring_substring by (unfold len in *; lia).
      f_equal; unfold len in *; lia.
  - apply forallb_substring; [unfold len in *; lia|].
    intros i Hi. destruct (HL3 (Z.of_nat i)) as (x & Hx & Hx'); [lia|]. rewrite Nat2Z.id in Hx. eauto.
  - apply forallb_substring; [unfold len in *; lia|].
    intros i Hi. destruct (HR4 (Z.of_nat i)) as (x & Hx & Hx'); [unfold len in *; lia|].
    rewrite Nat2Z.id in Hx. eauto.
  - intros x Hx. unfold at_ in Hx. cbn [Z.ltb Z.compare] in Hx.
    destruct (String.get _ t) eqn:Hg; [|discriminate]. injection Hx as <-.
    assert (Hlt : (0 < String.length t)%nat) by (destruct t; [discriminate|cbn; lia]).
    unfold t in Hg. rewrite get_substring in Hg by (unfold len in *; lia).
    destruct HL4 as (y & Hy & Hy'); [unfold len in *; lia|]. rewrite Nat.add_0_r in Hg. congruence.
  - intros x Hx. unfold at_ in Hx.
    destruct (len t - 1 <? 0) eqn:Hneg; [discriminate|].
    destruct (String.get _ t) eqn:Hg; [|discriminate]. injection Hx as <-.
    apply Z.ltb_ge in Hneg. unfold len in Hneg, Hg. rewrite Htlen in Hneg, Hg.
    unfold t in Hg. rewrite get_substring in Hg by (unfold len in *; lia).
    replace (Z.to_nat l + Z.to_nat (Z.of_nat (Z.to_nat (r + 1 - l)) - 1))%nat with (Z.to_nat r) in Hg
      by lia.
    destruct (Z.lt_ge_cases l r).
    + destruct (HR5 H) as (y & Hy & Hy'). congruence.
    + assert (r = l) by lia. subst r.
      destruct HL4 as (y & Hy & Hy'); [lia|]. congruence.
Qed.



(** *** What [encode] keeps of its buffer *)

Lemma emit_digits_extends (fuel : nat) (q k bias : Z) (buf : string) (q' : Z) (buf' : string) :
  emit_digits fuel q k bias buf = Ret (q', buf') -> exists rest, buf' = buf ++ rest.
Proof.
  revert q k buf. induction fuel as [|f IH]; intros q k buf H; cbn [emit_digits] in H; [discriminate|].
  destruct (q <? _).
  - injection H as _ <-. exists "". symmetry. apply string_app_nil_r.
  - destruct (IH _ _ _ H) as [rest ->]. unfold push. rewrite string_app_assoc. eauto.
Qed.

Lemma encode_pass_extends (rs : list Z) (n b : Z) (st st' : encState) :
  encode_pass rs n b st = Ret st' -> exists rest, st'.2 = st.2 ++ rest.
Proof.
  revert st. induction rs as [|r rs IH]; intros st H; cbn [encode_pass] in H.
  - injection H as <-. exists "". symmetry. apply string_app_nil_r.
  - destruct st as [[[[d bias] h] rem] buf].
    destruct (r <? n).
    + destruct (add32 d 1 <? 0); [discriminate|]. exact (IH _ H).
    + destruct (r >? n); [exact (IH _ H)|].
      destruct (emit_digits 32 d base bias buf) as [[q buf1]| |] eqn:He;
        cbn [mbind outcome_bind] in H; try discriminate.
      destruct (emit_digits_extends _ _ _ _ _ _ _ He) as [r1 ->].
      destruct (IH _ H) as [r2 Hr2]. cbn [snd] in *. rewrite Hr2. unfold push.
      rewrite !string_app_assoc. eauto.
Qed.

Lemma encode_loop_extends (fuel : nat) (rs : list Z) (n b : Z) (st : encState) (out : string) :
  encode_loop fuel rs n b st = Ret out -> exists rest, out = st.2 ++ rest.
Proof.
  revert n st. induction fuel as [|f IH]; intros n st H; cbn [encode_loop] in H; [discriminate|].
  destruct st as [[[[d bias] h] rem] buf].
  destruct (rem >? 0).
  - match type of H with context [if ?c then Fail _ else _] => destruct c end; [discriminate|].
    match type of H with (?m ≫= _) = _ => destruct m as [st1| |] eqn:Hp end;
      cbn [mbind outcome_bind] in H; try discriminate.
    destruct (encode_pass_extends _ _ _ _ _ Hp) as [r1 Hr1].
    destruct st1 as [[[[d1 bias1] h1] rem1] buf1].
    destruct (IH _ _ H) as [r2 ->]. cbn [snd] in *. rewrite Hr1, string_app_assoc. eauto.
  - injection H as <-. exists "". symmetry. apply string_app_nil_r.
Qed.

Lemma encode_fold_extends (rs : list Z) (b rem : Z) (buf : string) :
  exists rest, (fold_left (fun '(b, rem, buf) r =>
                  if r <? 128 then (add32 b 1, rem, push buf (chr r))
                  else (b, rem + 1, buf)) rs (b, rem, buf)).2 = buf ++ rest.
Proof.
  revert b rem buf. induction rs as [|r rs IH]; intros b rem buf; cbn [fold_left].
  - exists "". symmetry. apply string_app_nil_r.
  - destruct (r <? 128).
    + destruct (IH (add32 b 1) rem (push buf (chr r))) as [rest ->].
      unfold push. rewrite string_app_assoc. eauto.
    + exact (IH b (rem + 1) buf).
Qed.

(** Whatever [encode] returns starts with the buffer it was given and the
    ACE prefix ["xn--"]: it only appends. *)
Theorem encode_prefix (s buf out : string) :
  encode s buf = Ret out -> exists rest, out = buf ++ "xn--" ++ rest.
Proof.
  unfold encode.
  destruct (encode_fold_extends (runes (bytes s)) 0 0 (buf ++ "xn--")) as [r1 Hr1].
  destruct (fold_left _ (runes (bytes s)) (0, 0, buf ++ "xn--")) as [[b rem] buf1].
  cbn [snd] in Hr1. subst buf1.
  intros H. destruct (encode_loop_extends _ _ _ _ _ _ H) as [r2 ->]. cbn [snd].
  destruct (b >? 0); unfold push; rewrite !string_app_assoc; eauto.
Qed.

Lemma encode_prefix_witness :
  encode buecher "" = Ret "xn--bcher-kva" /\ exists rest, "xn--bcher-kva" = "" ++ "xn--" ++ rest.
Proof.
  assert (H : encode buecher "" = Ret "xn--bcher-kva") by (vm_compute; reflexivity).
  split; [exact H|]. exact (encode_prefix _ _ _ H).
Defined.
